(** * Redshift GTK status icon: the supervision core of [statusicon.py]

    A shallow embedding of [src/redshift-gtk/statusicon.py]: the class
    [RedshiftStatusIcon] (its attributes, callbacks and the child process
    protocol), the Python built-ins its methods call, and the part of the
    GLib main loop that dispatches its callbacks.

    Conventions.
    - A Python [str] is a list of Unicode code points ([N]); [bytes] is a
      [list byte].
    - A method of the class is a computation [M A]: it takes the object
      (together with the part of the outside world it acts on) and gives
      back an outcome, a returned value or a raised exception, and the
      object after the call.  What a method changed before it raised stays
      changed, as in Python.
    - The Unicode character database is not part of the repository; what
      the program needs of it beyond ASCII is the class [UnicodeData]. *)

From Stdlib Require Import ZArith NArith List Bool Lia.
From Stdlib.Strings Require Import String Ascii Byte.
Import ListNotations.

(* ================================================================== *)
(** * Python built-ins used by the program *)
(* ================================================================== *)

(** What CPython reads from the Unicode database for a code point outside
    ASCII: [Py_UNICODE_ISALNUM] (behind the regular expression class [\w]),
    [Py_UNICODE_ISSPACE] and [Py_UNICODE_TODECIMAL] (both behind [int]). *)
Class UnicodeData : Type := {
  uni_alnum : N -> bool;
  uni_space : N -> bool;
  uni_decimal : N -> option N
}.

(** The database cut down to ASCII: no other code point is a letter, a
    space or a digit.  It serves to evaluate the program on concrete
    (ASCII) protocol lines. *)
Definition ascii_only : UnicodeData :=
  {| uni_alnum := fun _ => false;
     uni_space := fun _ => false;
     uni_decimal := fun _ => None |}.

(** A Python [str]. *)
Abbreviation str := (list N) (only parsing).

(** A [str] literal. *)
Definition lit (s : string) : str :=
  map N_of_ascii (list_ascii_of_string s).

(** The newline character. *)
Definition NL : N := 10%N.

Fixpoint str_eqb (a b : str) : bool :=
  match a, b with
  | [], [] => true
  | x :: a', y :: b' => N.eqb x y && str_eqb a' b'
  | _, _ => false
  end.

(** [bytes.decode('utf-8')] with the default strict error handler:
    [None] stands for [UnicodeDecodeError].  Overlong forms, surrogates
    and code points above U+10FFFF are refused, as CPython does. *)
Definition utf8_cont (b : N) : bool := (128 <=? b)%N && (b <=? 191)%N.

Definition utf8_cp2 (b0 b1 : N) : N :=
  N.lor (N.shiftl (N.land b0 31) 6) (N.land b1 63).

Definition utf8_cp3 (b0 b1 b2 : N) : N :=
  N.lor (N.shiftl (N.land b0 15) 12)
        (N.lor (N.shiftl (N.land b1 63) 6) (N.land b2 63)).

Definition utf8_cp4 (b0 b1 b2 b3 : N) : N :=
  N.lor (N.shiftl (N.land b0 7) 18)
        (N.lor (N.shiftl (N.land b1 63) 12)
               (N.lor (N.shiftl (N.land b2 63) 6) (N.land b3 63))).

(** The second byte of a three-byte sequence, by its first byte. *)
Definition utf8_second3 (b0 b1 : N) : bool :=
  if (b0 =? 224)%N then (160 <=? b1)%N && (b1 <=? 191)%N
  else if (b0 =? 237)%N then (128 <=? b1)%N && (b1 <=? 159)%N
  else utf8_cont b1.

(** The second byte of a four-byte sequence, by its first byte. *)
Definition utf8_second4 (b0 b1 : N) : bool :=
  if (b0 =? 240)%N then (144 <=? b1)%N && (b1 <=? 191)%N
  else if (b0 =? 244)%N then (128 <=? b1)%N && (b1 <=? 143)%N
  else utf8_cont b1.

Definition opt_cons (c : N) (r : option str) : option str :=
  match r with Some s => Some (c :: s) | None => None end.

Fixpoint utf8_decode (bs : list byte) : option str :=
  match bs with
  | [] => Some []
  | x0 :: t0 =>
      let b0 := Byte.to_N x0 in
      if (b0 <? 128)%N then opt_cons b0 (utf8_decode t0)
      else if (194 <=? b0)%N && (b0 <=? 223)%N then
        match t0 with
        | x1 :: t1 =>
            let b1 := Byte.to_N x1 in
            if utf8_cont b1 then opt_cons (utf8_cp2 b0 b1) (utf8_decode t1)
            else None
        | _ => None
        end
      else if (224 <=? b0)%N && (b0 <=? 239)%N then
        match t0 with
        | x1 :: x2 :: t2 =>
            let b1 := Byte.to_N x1 in
            let b2 := Byte.to_N x2 in
            if utf8_second3 b0 b1 && utf8_cont b2
            then opt_cons (utf8_cp3 b0 b1 b2) (utf8_decode t2)
            else None
        | _ => None
        end
      else if (240 <=? b0)%N && (b0 <=? 244)%N then
        match t0 with
        | x1 :: x2 :: x3 :: t3 =>
            let b1 := Byte.to_N x1 in
            let b2 := Byte.to_N x2 in
            let b3 := Byte.to_N x3 in
            if utf8_second4 b0 b1 && utf8_cont b2 && utf8_cont b3
            then opt_cons (utf8_cp4 b0 b1 b2 b3) (utf8_decode t3)
            else None
        | _ => None
        end
      else None
  end.

(** [s.partition('\n')]: the text before the first newline, the separator
    found (empty when there is none) and the text after it. *)
Fixpoint partition_nl (s : str) : str * str * str :=
  match s with
  | [] => ([], [], [])
  | c :: s' =>
      if (c =? NL)%N then ([], [NL], s')
      else let '(first, sep, last) := partition_nl s' in
           (c :: first, sep, last)
  end.

(** [s.rstrip(ch)] for a one-character argument. *)
Fixpoint rstrip (ch : N) (s : str) : str :=
  match s with
  | [] => []
  | c :: s' =>
      match rstrip ch s' with
      | [] => if (c =? ch)%N then [] else [c]
      | r => c :: r
      end
  end.

(** [s.split(sep)] for a two-character separator [a b]: the pieces between
    the occurrences of the separator, found from the left and not
    overlapping.  [cur] is the piece being read, reversed. *)
Fixpoint split2_from (a b : N) (cur : str) (s : str) : list str :=
  match s with
  | [] => [rev cur]
  | c :: s' =>
      match s' with
      | d :: s'' =>
          if (c =? a)%N && (d =? b)%N
          then rev cur :: split2_from a b [] s''
          else split2_from a b (c :: cur) s'
      | [] => [rev (c :: cur)]
      end
  end.

Definition split2 (a b : N) (s : str) : list str := split2_from a b [] s.

(** [sep.join(parts)], the inverse of [split]. *)
Fixpoint join (sep : str) (parts : list str) : str :=
  match parts with
  | [] => []
  | [p] => p
  | p :: ps => p ++ sep ++ join sep ps
  end.

Section Unicode_builtins.
Context {ucd : UnicodeData}.

(** ** [int(s, 10)] *)

(** [Py_ISSPACE]: tab, newline, vertical tab, form feed, carriage return
    and space. *)
Definition ascii_space (c : N) : bool :=
  ((9 <=? c)%N && (c <=? 13)%N) || (c =? 32)%N.

(** [_PyUnicode_TransformDecimalAndSpaceToASCII]: an ASCII string is taken
    as it is; in any other string a Unicode space becomes a space, a
    Unicode decimal digit its ASCII digit and every other character from
    U+007F on a question mark. *)
Definition to_ascii_char (c : N) : N :=
  if (c <? 127)%N then c
  else if uni_space c then 32%N
  else match uni_decimal c with
       | Some d => (48 + d)%N
       | None => 63%N
       end.

Definition to_ascii (s : str) : str :=
  if forallb (fun c => (c <? 128)%N) s then s else map to_ascii_char s.

Fixpoint lstrip_space (s : str) : str :=
  match s with
  | c :: s' => if ascii_space c then lstrip_space s' else s
  | [] => []
  end.

Definition digit_value (c : N) : option Z :=
  if (48 <=? c)%N && (c <=? 57)%N then Some (Z.of_N (c - 48)) else None.

(** [sys.int_info.default_max_str_digits]: the most digits CPython lets
    [int] read from a decimal literal and [str] write for an [int], unless
    the limit is changed ([sys.set_int_max_str_digits], the environment
    variable [PYTHONINTMAXSTRDIGITS], the option [-X int_max_str_digits]),
    which the program does not do.  The sign, underscores and surrounding
    white space are not counted; leading zeros are. *)
Definition default_max_str_digits : N := 4300.

(** The digits of the literal, single underscores allowed between two
    digits: the value read and the text left. *)
Fixpoint scan_digits (acc : Z) (prev_underscore : bool) (s : str)
  : option (Z * str) :=
  match s with
  | c :: s' =>
      match digit_value c with
      | Some d => scan_digits (10 * acc + d) false s'
      | None =>
          if (c =? 95)%N then
            if prev_underscore then None else scan_digits acc true s'
          else if prev_underscore then None else Some (acc, s)
      end
  | [] => if prev_underscore then None else Some (acc, [])
  end.

(** The number of digits the scan goes over: the counter [digits] of
    [long_from_string_base], which underscores leave as it is. *)
Fixpoint count_digits (s : str) : N :=
  match s with
  | c :: s' =>
      match digit_value c with
      | Some _ => N.succ (count_digits s')
      | None => if (c =? 95)%N then count_digits s' else 0%N
      end
  | [] => 0%N
  end.

(** [int(s, 10)]: surrounding white space, an optional sign, at least one
    digit, and no more than [default_max_str_digits] digits.  [None] stands
    for [ValueError], which is what CPython raises for a literal it cannot
    read and for one with too many digits alike. *)
Definition int10 (s : str) : option Z :=
  let t := lstrip_space (to_ascii s) in
  let '(sign, t) :=
    match t with
    | c :: r => if (c =? 43)%N then (1, r)
                else if (c =? 45)%N then (-1, r)
                else (1, t)
    | [] => (1, t)
    end%Z in
  match t with
  | c :: _ =>
      match digit_value c with
      | None => None
      | Some _ =>
          match scan_digits 0 false t with
          | Some (n, rest) =>
              if (default_max_str_digits <? count_digits t)%N then None
              else
                match lstrip_space rest with
                | [] => Some (sign * n)%Z
                | _ => None
                end
          | None => None
          end
      end
  | [] => None
  end.

(** ** [re.match(r'([\w ]+): (.+)', line)] *)

Definition ascii_alnum (c : N) : bool :=
  ((48 <=? c)%N && (c <=? 57)%N)
  || ((65 <=? c)%N && (c <=? 90)%N)
  || ((97 <=? c)%N && (c <=? 122)%N).

(** The class [\w] of a [str] pattern: alphanumeric or underscore. *)
Definition is_word (c : N) : bool :=
  if (c <? 128)%N then ascii_alnum c || (c =? 95)%N else uni_alnum c.

(** The class [[\w ]]. *)
Definition key_char (c : N) : bool := is_word c || (c =? 32)%N.

(** [.]: any character but a newline. *)
Definition dot (c : N) : bool := negb (c =? NL)%N.

(** The longest prefix of characters in [p], and the rest. *)
Fixpoint span (p : N -> bool) (s : str) : str * str :=
  match s with
  | c :: s' =>
      if p c then let '(a, b) := span p s' in (c :: a, b) else ([], s)
  | [] => ([], [])
  end.

(** The match is anchored at the start of the line only.  A colon is not
    in [[\w ]], so the greedy first group can only end where the run of
    [[\w ]] characters ends: giving characters back never finds [": "].
    The second group is greedy too and takes every character up to the
    first newline.  [None] is "no match"; otherwise groups 1 and 2. *)
Definition re_match (line : str) : option (str * str) :=
  match span key_char line with
  | ((_ :: _) as key, c1 :: c2 :: rest) =>
      if (c1 =? 58)%N && (c2 =? 32)%N then
        match span dot rest with
        | ((_ :: _) as value, _) => Some (key, value)
        | _ => None
        end
      else None
  | _ => None
  end.

End Unicode_builtins.

(** ** [str.format] with automatically numbered fields *)

(** A template is given by the literal pieces around its [{}] fields:
    ['<b>{}:</b> {}, {}'] is [["<b>"; ":</b> "; ", "; ""]].  [None] stands
    for [IndexError]: a field with no argument left.  Arguments beyond the
    last field are ignored. *)
Fixpoint str_format (pieces : list str) (args : list str) : option str :=
  match pieces with
  | [] => Some []
  | [p] => Some p
  | p :: ps =>
      match args with
      | a :: args' =>
          match str_format ps args' with
          | Some r => Some (p ++ a ++ r)
          | None => None
          end
      | [] => None
      end
  end.

(** ** [str(i)] for an [int] *)

(** The decimal digits of a number, the last one first.  A number has at
    most one digit more than its binary logarithm, which is the fuel
    [str_of_nat] gives. *)
Fixpoint digits_le (fuel : nat) (n : N) : list N :=
  match fuel with
  | O => []
  | S fuel' =>
      if (n <? 10)%N then [n]
      else (n mod 10)%N :: digits_le fuel' (n / 10)%N
  end.

Definition str_of_nat (n : N) : str :=
  map (fun d => (48 + d)%N)
    (rev (digits_le (S (N.to_nat (N.log2 n))) n)).

(** [str(i)], which is how [format] writes an [int] into a [{}] field.
    [None] stands for [ValueError]: the number has more than
    [default_max_str_digits] digits. *)
Definition str_of_int (i : Z) : option str :=
  let digits := str_of_nat (Z.abs_N i) in
  if (default_max_str_digits <? N.of_nat (List.length digits))%N then None
  else Some (if (i <? 0)%Z then 45%N :: digits else digits).

(* ================================================================== *)
(** * The object and the world around it *)
(* ================================================================== *)

(** A Python [float], as mantissa and binary exponent.  The program only
    ever writes the literal [0.0]. *)
Inductive pyfloat : Type := PyFloat (mantissa exponent : Z).

(** The value held by [self._location]: the tuple of two floats that
    [__init__] stores, or the list that [str.split] returned. *)
Inductive location_value : Type :=
| FloatPair (latitude longitude : pyfloat)
| StrList (parts : list str).

Inductive signal : Type := SIGUSR1 | SIGINT.

(** The callbacks the program hands to [GLib.timeout_add_seconds]. *)
Inductive timeout_callback : Type := Reenable_cb.

(** A timeout source attached to the GLib main context: the id
    [timeout_add_seconds] returned, the interval in seconds, the time it
    was armed at and its callback.  It is due at [src_armed + src_interval]. *)
Record timeout : Type := mkTimeout {
  src_id : N;
  src_interval : Z;
  src_armed : Z;
  src_callback : timeout_callback
}.

Definition deadline (t : timeout) : Z := src_armed t + src_interval t.

(** The two [InputBuffer] instances.  [buf] is a class attribute, but
    [ib.buf += ...] stores the result on the instance, so the two
    buffers never share their text. *)
Inductive buffer_ref : Type := Input_buffer | Error_buffer.

(** The attributes of [RedshiftStatusIcon] that its callbacks read, and the
    part of the world the callbacks act on.  The label widgets and the
    icon are written and never read back; their text is not kept. *)
Record Self : Type := mkSelf {
  (* attributes *)
  _status : bool;
  _temperature : Z;
  _period : str;
  _location : location_value;
  suspend_timer : option N;
  input_buffer : str;              (* self.input_buffer.buf *)
  error_buffer : str;              (* self.error_buffer.buf *)
  errors : str;
  toggle_item_active : bool;       (* self.toggle_item.get_active() *)
  (* GLib *)
  timeouts : list timeout;         (* attached timeout sources *)
  next_source_id : N;              (* the id the next source gets *)
  clock : Z;                       (* monotonic time, in seconds *)
  sources_not_found : list N;      (* ids source_remove did not find *)
  main_quit : bool;                (* Gtk.main_quit() was called *)
  (* the operating system and the screen *)
  signals : list signal;           (* sent to the child with os.kill *)
  error_dialog : option str;       (* markup of the error dialog run *)
  (* ghost: the lines child_data_cb split off, with its stdout flag *)
  yielded : list (bool * str)
}.

Definition set_status (v : bool) (s : Self) : Self :=
  mkSelf v (_temperature s) (_period s) (_location s) (suspend_timer s)
    (input_buffer s) (error_buffer s) (errors s) (toggle_item_active s)
    (timeouts s) (next_source_id s) (clock s) (sources_not_found s)
    (main_quit s) (signals s) (error_dialog s) (yielded s).

Definition set_temperature (v : Z) (s : Self) : Self :=
  mkSelf (_status s) v (_period s) (_location s) (suspend_timer s)
    (input_buffer s) (error_buffer s) (errors s) (toggle_item_active s)
    (timeouts s) (next_source_id s) (clock s) (sources_not_found s)
    (main_quit s) (signals s) (error_dialog s) (yielded s).

Definition set_period (v : str) (s : Self) : Self :=
  mkSelf (_status s) (_temperature s) v (_location s) (suspend_timer s)
    (input_buffer s) (error_buffer s) (errors s) (toggle_item_active s)
    (timeouts s) (next_source_id s) (clock s) (sources_not_found s)
    (main_quit s) (signals s) (error_dialog s) (yielded s).

Definition set_location (v : location_value) (s : Self) : Self :=
  mkSelf (_status s) (_temperature s) (_period s) v (suspend_timer s)
    (input_buffer s) (error_buffer s) (errors s) (toggle_item_active s)
    (timeouts s) (next_source_id s) (clock s) (sources_not_found s)
    (main_quit s) (signals s) (error_dialog s) (yielded s).

Definition set_suspend_timer (v : option N) (s : Self) : Self :=
  mkSelf (_status s) (_temperature s) (_period s) (_location s) v
    (input_buffer s) (error_buffer s) (errors s) (toggle_item_active s)
    (timeouts s) (next_source_id s) (clock s) (sources_not_found s)
    (main_quit s) (signals s) (error_dialog s) (yielded s).

Definition set_input_buffer (v : str) (s : Self) : Self :=
  mkSelf (_status s) (_temperature s) (_period s) (_location s)
    (suspend_timer s) v (error_buffer s) (errors s) (toggle_item_active s)
    (timeouts s) (next_source_id s) (clock s) (sources_not_found s)
    (main_quit s) (signals s) (error_dialog s) (yielded s).

Definition set_error_buffer (v : str) (s : Self) : Self :=
  mkSelf (_status s) (_temperature s) (_period s) (_location s)
    (suspend_timer s) (input_buffer s) v (errors s) (toggle_item_active s)
    (timeouts s) (next_source_id s) (clock s) (sources_not_found s)
    (main_quit s) (signals s) (error_dialog s) (yielded s).

Definition set_errors (v : str) (s : Self) : Self :=
  mkSelf (_status s) (_temperature s) (_period s) (_location s)
    (suspend_timer s) (input_buffer s) (error_buffer s) v
    (toggle_item_active s) (timeouts s) (next_source_id s) (clock s)
    (sources_not_found s) (main_quit s) (signals s) (error_dialog s)
    (yielded s).

Definition set_toggle_item_active (v : bool) (s : Self) : Self :=
  mkSelf (_status s) (_temperature s) (_period s) (_location s)
    (suspend_timer s) (input_buffer s) (error_buffer s) (errors s) v
    (timeouts s) (next_source_id s) (clock s) (sources_not_found s)
    (main_quit s) (signals s) (error_dialog s) (yielded s).

Definition set_timeouts (v : list timeout) (s : Self) : Self :=
  mkSelf (_status s) (_temperature s) (_period s) (_location s)
    (suspend_timer s) (input_buffer s) (error_buffer s) (errors s)
    (toggle_item_active s) v (next_source_id s) (clock s)
    (sources_not_found s) (main_quit s) (signals s) (error_dialog s)
    (yielded s).

Definition set_next_source_id (v : N) (s : Self) : Self :=
  mkSelf (_status s) (_temperature s) (_period s) (_location s)
    (suspend_timer s) (input_buffer s) (error_buffer s) (errors s)
    (toggle_item_active s) (timeouts s) v (clock s) (sources_not_found s)
    (main_quit s) (signals s) (error_dialog s) (yielded s).

Definition set_clock (v : Z) (s : Self) : Self :=
  mkSelf (_status s) (_temperature s) (_period s) (_location s)
    (suspend_timer s) (input_buffer s) (error_buffer s) (errors s)
    (toggle_item_active s) (timeouts s) (next_source_id s) v
    (sources_not_found s) (main_quit s) (signals s) (error_dialog s)
    (yielded s).

Definition set_sources_not_found (v : list N) (s : Self) : Self :=
  mkSelf (_status s) (_temperature s) (_period s) (_location s)
    (suspend_timer s) (input_buffer s) (error_buffer s) (errors s)
    (toggle_item_active s) (timeouts s) (next_source_id s) (clock s) v
    (main_quit s) (signals s) (error_dialog s) (yielded s).

Definition set_main_quit (v : bool) (s : Self) : Self :=
  mkSelf (_status s) (_temperature s) (_period s) (_location s)
    (suspend_timer s) (input_buffer s) (error_buffer s) (errors s)
    (toggle_item_active s) (timeouts s) (next_source_id s) (clock s)
    (sources_not_found s) v (signals s) (error_dialog s) (yielded s).

Definition set_signals (v : list signal) (s : Self) : Self :=
  mkSelf (_status s) (_temperature s) (_period s) (_location s)
    (suspend_timer s) (input_buffer s) (error_buffer s) (errors s)
    (toggle_item_active s) (timeouts s) (next_source_id s) (clock s)
    (sources_not_found s) (main_quit s) v (error_dialog s) (yielded s).

Definition set_error_dialog (v : option str) (s : Self) : Self :=
  mkSelf (_status s) (_temperature s) (_period s) (_location s)
    (suspend_timer s) (input_buffer s) (error_buffer s) (errors s)
    (toggle_item_active s) (timeouts s) (next_source_id s) (clock s)
    (sources_not_found s) (main_quit s) (signals s) v (yielded s).

Definition set_yielded (v : list (bool * str)) (s : Self) : Self :=
  mkSelf (_status s) (_temperature s) (_period s) (_location s)
    (suspend_timer s) (input_buffer s) (error_buffer s) (errors s)
    (toggle_item_active s) (timeouts s) (next_source_id s) (clock s)
    (sources_not_found s) (main_quit s) (signals s) (error_dialog s) v.

Definition get_buf (ib : buffer_ref) (s : Self) : str :=
  match ib with
  | Input_buffer => input_buffer s
  | Error_buffer => error_buffer s
  end.

Definition set_buf (ib : buffer_ref) (v : str) (s : Self) : Self :=
  match ib with
  | Input_buffer => set_input_buffer v s
  | Error_buffer => set_error_buffer v s
  end.

(** ** Exceptions and the monad of methods *)

Inductive exn : Type :=
| ValueError
| IndexError
| UnicodeDecodeError
| GError
| SystemExit (code : Z)
| NotTerminated.   (* the model of a loop ran out of fuel; see
                      [child_data_cb_terminates] *)

Inductive outcome (A : Type) : Type :=
| Return (a : A)
| Raise (e : exn).
Arguments Return {A} a.
Arguments Raise {A} e.

Definition M (A : Type) : Type := Self -> outcome A * Self.

Definition ret {A} (a : A) : M A := fun s => (Return a, s).

Definition raise {A} (e : exn) : M A := fun s => (Raise e, s).

Definition bind {A B} (m : M A) (k : A -> M B) : M B :=
  fun s =>
    match m s with
    | (Return a, s') => k a s'
    | (Raise e, s') => (Raise e, s')
    end.

Definition gets {A} (f : Self -> A) : M A := fun s => (Return (f s), s).

Definition modify (f : Self -> Self) : M unit := fun s => (Return tt, f s).

(** [try: body  except E: handler], for one exception class [E]. *)
Definition try_except {A} (body : M A) (caught : exn -> bool)
    (handler : M A) : M A :=
  fun s =>
    match body s with
    | (Raise e, s') => if caught e then handler s' else (Raise e, s')
    | r => r
    end.

Notation "x <- m ;; k" := (bind m (fun x => k))
  (at level 61, m at next level, right associativity).
Notation "m ;; k" := (bind m (fun _ => k))
  (at level 61, right associativity).

(** The object a computation leaves behind. *)
Definition exec {A} (m : M A) (s : Self) : Self := snd (m s).

(** Its outcome. *)
Definition result {A} (m : M A) (s : Self) : outcome A := fst (m s).

(** ** GLib, Gtk and the operating system, as the program uses them *)

Local Open Scope Z_scope.

(** [os.kill(self.process[0], sig)].  The child is not reaped before
    [child_cb] runs ([SPAWN_DO_NOT_REAP_CHILD]), so the signal is
    delivered. *)
Definition os_kill (sig : signal) : M unit :=
  modify (fun s => set_signals (signals s ++ [sig]) s).

Definition has_source (id : N) (s : Self) : bool :=
  existsb (fun t => (src_id t =? id)%N) (timeouts s).

(** [GLib.source_remove(id)]: detaches the source, or reports that no
    source has this id. *)
Definition glib_source_remove (id : N) : M bool :=
  fun s =>
    if has_source id s
    then (Return true,
          set_timeouts
            (filter (fun t => negb (src_id t =? id)%N) (timeouts s)) s)
    else (Return false,
          set_sources_not_found (sources_not_found s ++ [id]) s).

(** [GLib.timeout_add_seconds(interval, callback)]: attaches a new source
    and returns its id.  Ids are handed out in increasing order. *)
Definition glib_timeout_add_seconds (interval : Z) (cb : timeout_callback)
  : M N :=
  fun s =>
    let id := next_source_id s in
    (Return id,
     set_next_source_id (id + 1)%N
       (set_timeouts (timeouts s ++ [mkTimeout id interval (clock s) cb]) s)).

Definition gtk_main_quit : M unit := modify (set_main_quit true).

(** [GLib.spawn_check_exit_status(status)] on a wait status: fine when the
    child exited ([WIFEXITED]) with [WEXITSTATUS] zero, [GError] otherwise
    (a non-zero exit code, or death by a signal). *)
Definition WIFEXITED (status : Z) : bool := Z.land status 127 =? 0.
Definition WEXITSTATUS (status : Z) : Z := Z.land (Z.shiftr status 8) 255.

Definition glib_spawn_check_exit_status (status : Z) : M unit :=
  if WIFEXITED status && (WEXITSTATUS status =? 0) then ret tt
  else raise GError.

(** [sys.exit(code)]. *)
Definition sys_exit {A} (code : Z) : M A := raise (SystemExit code).

(* ================================================================== *)
(** * The methods of [RedshiftStatusIcon] *)
(* ================================================================== *)

Section Program.
Context {ucd : UnicodeData}.

(** The object [__init__] builds, once the child is started and the
    watches on its exit, its stdout and its stderr are attached (sources
    1, 2 and 3). *)
Definition init : Self :=
  {| _status := false;
     _temperature := 0;
     _period := lit "Unknown";
     _location := FloatPair (PyFloat 0 0) (PyFloat 0 0);
     suspend_timer := None;
     input_buffer := [];
     error_buffer := [];
     errors := [];
     toggle_item_active := false;
     timeouts := [];
     next_source_id := 4%N;
     clock := 0;
     sources_not_found := [];
     main_quit := false;
     signals := [];
     error_dialog := None;
     yielded := [] |}.

(** The [data] argument registered with each [GLib.io_add_watch]. *)
Definition stdout_watch : bool * buffer_ref := (true, Input_buffer).
Definition stderr_watch : bool * buffer_ref := (false, Error_buffer).

Definition is_enabled : M bool := gets _status.

Definition child_toggle_status : M unit := os_kill SIGUSR1.

Definition remove_suspend_timer : M unit :=
  t <- gets suspend_timer ;;
  match t with
  | Some id =>
      glib_source_remove id ;;
      modify (set_suspend_timer None)
  | None => ret tt
  end.

Definition reenable_cb : M unit :=
  e <- is_enabled ;;
  if negb e then child_toggle_status else ret tt.

Definition suspend_cb (minutes : Z) : M unit :=
  e <- is_enabled ;;
  (if e then child_toggle_status else ret tt) ;;
  remove_suspend_timer ;;
  id <- glib_timeout_add_seconds (minutes * 60) Reenable_cb ;;
  modify (set_suspend_timer (Some id)).

Definition toggle_cb : M unit :=
  remove_suspend_timer ;;
  child_toggle_status.

(** [widget] is always [self.toggle_item]. *)
Definition toggle_item_cb : M unit :=
  e <- is_enabled ;;
  a <- gets toggle_item_active ;;
  if negb (Bool.eqb e a) then
    remove_suspend_timer ;;
    child_toggle_status
  else ret tt.

(** [self.toggle_item.set_active(b)].  When the state of a
    [Gtk.CheckMenuItem] changes, Gtk flips it and emits [activate], which
    runs [toggle_item_cb] before [set_active] returns. *)
Definition toggle_item_set_active (b : bool) : M unit :=
  a <- gets toggle_item_active ;;
  if Bool.eqb a b then ret tt
  else modify (set_toggle_item_active b) ;; toggle_item_cb.

Definition change_status (status : bool) : M unit :=
  modify (set_status status) ;;
  e <- is_enabled ;;
  toggle_item_set_active e.

(** ['<b>{}:</b> {}K'.format(word, temperature)], where [word] is the
    translation of "Color temperature". *)
Definition temperature_markup (word : str) (temperature : Z) : outcome str :=
  match str_of_int temperature with
  | None => Raise ValueError
  | Some digits =>
      match str_format [lit "<b>"; lit ":</b> "; lit "K"] [word; digits] with
      | Some text => Return text
      | None => Raise IndexError
      end
  end.

(** The text of the label is not kept, only whether writing it raises,
    which does not depend on the translation of the word. *)
Definition change_temperature (temperature : Z) : M unit :=
  modify (set_temperature temperature) ;;
  match temperature_markup (lit "Color temperature") temperature with
  | Return _ => ret tt
  | Raise e => raise e
  end.

Definition change_period (period : str) : M unit :=
  modify (set_period period).

(** ['<b>{}:</b> {}, {}'] *)
Definition location_template : list str :=
  [lit "<b>"; lit ":</b> "; lit ", "; lit ""].

(** The label text is [format(_('Location'), *location)]: it needs two
    components after the translated word. *)
Definition change_location (location : list str) : M unit :=
  modify (set_location (StrList location)) ;;
  match str_format location_template (lit "Location" :: location) with
  | Some _ => ret tt
  | None => raise IndexError
  end.

Definition child_key_change_cb (key value : str) : M unit :=
  if str_eqb key (lit "Status") then
    change_status (negb (str_eqb value (lit "Disabled")))
  else if str_eqb key (lit "Color temperature") then
    match int10 (rstrip 75 value) with
    | Some n => change_temperature n
    | None => raise ValueError
    end
  else if str_eqb key (lit "Period") then
    change_period value
  else if str_eqb key (lit "Location") then
    change_location (split2 44 32 value)
  else ret tt.

Definition child_stdout_line_cb (line : str) : M unit :=
  match line with
  | [] => ret tt
  | _ =>
      match re_match line with
      | Some (key, value) => child_key_change_cb key value
      | None => ret tt
      end
  end.

(** What [child_data_cb] does with one line. *)
Definition line_cb (stdout : bool) (first : str) : M unit :=
  if stdout then child_stdout_line_cb first
  else modify (fun s => set_errors (errors s ++ first ++ [NL]) s).

(** The loop [while True: first, sep, last = ib.buf.partition('\n') ...].
    Every round but the last takes a line and its newline off the buffer,
    so one round more than the buffer has characters is enough
    ([split_loop_fuel]). *)
Fixpoint split_loop (fuel : nat) (stdout : bool) (ib : buffer_ref)
  : M unit :=
  match fuel with
  | O => raise NotTerminated
  | S fuel' =>
      buf <- gets (get_buf ib) ;;
      let '(first, sep, last) := partition_nl buf in
      match sep with
      | [] => ret tt
      | _ =>
          modify (set_buf ib last) ;;
          modify (fun s => set_yielded (yielded s ++ [(stdout, first)]) s) ;;
          line_cb stdout first ;;
          split_loop fuel' stdout ib
      end
  end.

(** [child_data_cb(f, cond, data)], given what [os.read(f, 256)]
    returned. *)
Definition child_data_cb (data : bool * buffer_ref) (read : list byte)
  : M bool :=
  let '(stdout, ib) := data in
  match utf8_decode read with
  | None => raise UnicodeDecodeError
  | Some text =>
      modify (fun s => set_buf ib (get_buf ib s ++ text) s) ;;
      fuel <- gets (fun s => S (List.length (get_buf ib s))) ;;
      split_loop fuel stdout ib ;;
      ret true
  end.

(** The loop that empties one pipe in [child_cb].  [reads] is what the
    successive [os.read(f, 256)] return before the empty read at the end
    of the stream. *)
Fixpoint drain (dest_is_stderr : bool) (reads : list (list byte))
  : M unit :=
  match reads with
  | [] => ret tt
  | r :: reads' =>
      match utf8_decode r with
      | None => raise UnicodeDecodeError
      | Some [] => ret tt
      | Some buf =>
          (if dest_is_stderr
           then modify (fun s => set_errors (errors s ++ buf) s)
           else ret tt) ;;
          drain dest_is_stderr reads'
      end
  end.

Definition is_GError (e : exn) : bool :=
  match e with GError => true | _ => false end.

(** ['<b>Failed to run Redshift</b>\n<i>' + self.errors + '</i>'] *)
Definition error_markup (errs : str) : str :=
  lit "<b>Failed to run Redshift</b>" ++ [NL] ++ lit "<i>" ++ errs
  ++ lit "</i>".

(** [child_cb(pid, status)], given what is left to read in the two
    pipes. *)
Definition child_cb (status : Z) (stdout_reads stderr_reads : list (list byte))
  : M unit :=
  drain false stdout_reads ;;
  drain true stderr_reads ;;
  show_errors <-
    try_except
      (glib_spawn_check_exit_status status ;; gtk_main_quit ;; ret false)
      is_GError
      (ret true) ;;
  if (show_errors : bool) then
    errs <- gets errors ;;
    modify (set_error_dialog (Some (error_markup errs))) ;;
    sys_exit (-1)
  else ret tt.

(** The exit status of the supervising process once [child_cb] is over:
    [sys.exit(code)] ends it with the low byte of [code]; after
    [Gtk.main_quit()] the main loop returns, [run] sends the child a last
    [SIGINT] and ends with status 0.  [None]: the process goes on. *)
Definition supervisor_exit (r : outcome unit * Self) : option Z :=
  match r with
  | (Raise (SystemExit code), _) => Some (code mod 256)
  | (Return _, s) => if main_quit s then Some 0 else None
  | _ => None
  end.

(* ================================================================== *)
(** * The main loop *)
(* ================================================================== *)

(** What the main loop can dispatch to the object while the child runs. *)
Inductive event : Type :=
| Status_icon_activate                  (* toggle_cb *)
| Toggle_item_activate                  (* the menu item is clicked *)
| Suspend_item_activate (minutes : Z)   (* suspend_cb *)
| Timeout_expired (id : N)              (* a timeout source is due *)
| Child_data (data : bool * buffer_ref) (read : list byte)
| Relay_signal                          (* SIGUSR1 reaches the program *)
| Time_passes (seconds : Z).

Definition run_timeout_callback (cb : timeout_callback) : M unit :=
  match cb with Reenable_cb => reenable_cb end.

(** GLib runs the callback of the source; the callback returns [None], so
    the source is destroyed. *)
Definition dispatch_timeout (t : timeout) (s : Self) : Self :=
  let s' := exec (run_timeout_callback (src_callback t)) s in
  set_timeouts
    (filter (fun u => negb (src_id u =? src_id t)%N) (timeouts s')) s'.

(** The menu [__init__] builds offers 30, 60 and 120 minutes. *)
Definition suspend_menu : list Z := [30; 60; 120].

Inductive step : Self -> event -> Self -> Prop :=
| step_status_icon s :
    step s Status_icon_activate (exec toggle_cb s)
| step_toggle_item s :
    step s Toggle_item_activate
      (exec toggle_item_cb
         (set_toggle_item_active (negb (toggle_item_active s)) s))
| step_suspend s minutes :
    In minutes suspend_menu ->
    step s (Suspend_item_activate minutes) (exec (suspend_cb minutes) s)
| step_timeout s t :
    In t (timeouts s) ->
    deadline t <= clock s ->
    step s (Timeout_expired (src_id t)) (dispatch_timeout t s)
| step_child_data s data read :
    In data [stdout_watch; stderr_watch] ->
    step s (Child_data data read) (exec (child_data_cb data read) s)
| step_relay s :
    step s Relay_signal (exec (os_kill SIGUSR1) s)
| step_time s dt :
    0 <= dt ->
    step s (Time_passes dt) (set_clock (clock s + dt) s).

(** A run of the main loop. *)
Inductive steps : Self -> list event -> Self -> Prop :=
| steps_nil s : steps s [] s
| steps_cons s e s' es s'' :
    step s e s' -> steps s' es s'' -> steps s (e :: es) s''.

Definition reachable (s : Self) : Prop := exists es, steps init es s.


(* ================================================================== *)
(** * Notions the statements below are about *)
(* ================================================================== *)

(** The shape of a protocol line, in the words of the specification: one
    or more word characters or spaces, a colon, a space, then a remainder
    that is not empty. *)
Definition kv_shape (line : str) : Prop :=
  exists key rest,
    key <> [] /\ Forall (fun c => key_char c = true) key /\ rest <> []
    /\ line = key ++ lit ": " ++ rest.

(** The decoder in one piece: for each key, the outcome and the object
    left behind. *)
Definition decoded (key value : str) (s : Self) : outcome unit * Self :=
  if str_eqb key (lit "Status") then
    let status := negb (str_eqb value (lit "Disabled")) in
    (Return tt, set_toggle_item_active status (set_status status s))
  else if str_eqb key (lit "Color temperature") then
    match int10 (rstrip 75 value) with
    | Some n => (Return tt, set_temperature n s)
    | None => (Raise ValueError, s)
    end
  else if str_eqb key (lit "Period") then
    (Return tt, set_period value s)
  else if str_eqb key (lit "Location") then
    (if (List.length (split2 44 32 value) <? 2)%nat
     then Raise IndexError else Return tt,
     set_location (StrList (split2 44 32 value)) s)
  else (Return tt, s).

(** The complete lines of a text, and what follows its last newline. *)
Fixpoint lines_of (s : str) : list str * str :=
  match s with
  | [] => ([], [])
  | c :: s' =>
      let '(ls, r) := lines_of s' in
      if (c =? NL)%N then ([] :: ls, r)
      else match ls with
           | [] => ([], c :: r)
           | l :: ls' => ((c :: l) :: ls', r)
           end
  end.

(** The loop of [child_data_cb] with the fuel [child_data_cb] gives it. *)
Definition run_loop (stdout : bool) (ib : buffer_ref) : M unit :=
  fun s => split_loop (S (List.length (get_buf ib s))) stdout ib s.

(** The reads of one stream handed to [child_data_cb] one after the
    other; [None] when one of the calls raises. *)
Fixpoint feed (data : bool * buffer_ref) (reads : list (list byte))
    (s : Self) : option Self :=
  match reads with
  | [] => Some s
  | r :: reads' =>
      match child_data_cb data r s with
      | (Return _, s') => feed data reads' s'
      | (Raise _, _) => None
      end
  end.

(** The worker state the object mirrors. *)
Definition worker_state (s : Self) : bool * Z * str * location_value :=
  (_status s, _temperature s, _period s, _location s).

(** What the timers and the signals see of the object. *)
Definition sched (s : Self)
  : option N * list timeout * N * Z * list signal * list N :=
  (suspend_timer s, timeouts s, next_source_id s, clock s, signals s,
   sources_not_found s).

(** The sources left when the one with this id is detached. *)
Definition without (id : N) (l : list timeout) : list timeout :=
  filter (fun t => negb (src_id t =? id)%N) l.

(** The invariant of the suspend timer: a pending timeout is the one
    [self.suspend_timer] names, there is at most one, and the id held was
    handed out. *)
Definition timer_inv (s : Self) : Prop :=
  (forall t, In t (timeouts s) -> suspend_timer s = Some (src_id t))
  /\ (List.length (timeouts s) <= 1)%nat
  /\ (forall id, suspend_timer s = Some id -> (id < next_source_id s)%N).

(** Three reads of the child's stdout, cut inside the lines. *)
Definition read1 : list byte := list_byte_of_string "Status: En".
Definition read2 : list byte :=
  list_byte_of_string "abled" ++ [x0a] ++ list_byte_of_string "Period: Ni".
Definition read3 : list byte :=
  list_byte_of_string "ght" ++ [x0a] ++ list_byte_of_string "Col".

(** The object after the three reads. *)
Definition after_reads : Self :=
  exec (child_data_cb stdout_watch read3)
    (exec (child_data_cb stdout_watch read2)
       (exec (child_data_cb stdout_watch read1) init)).

(* ================================================================== *)
(** * Starting the child: [__init__] and [start_child_process] *)
(* ================================================================== *)

(** [os.path.join(a, b)] of [posixpath], for two components. *)
Definition ends_with_slash (a : str) : bool :=
  match rev a with
  | c :: _ => (c =? 47)%N
  | [] => false
  end.

Definition os_path_join (a b : str) : str :=
  match b with
  | c :: _ =>
      if (c =? 47)%N then b
      else match a with
           | [] => b
           | _ => if ends_with_slash a then a ++ b else a ++ lit "/" ++ b
           end
  | [] =>
      match a with
      | [] => []
      | _ => if ends_with_slash a then a else a ++ lit "/"
      end
  end.

(** [l.insert(i, x)] for an index that is not negative: an index beyond
    the end appends. *)
Definition list_insert {A : Type} (i : nat) (x : A) (l : list A) : list A :=
  firstn i l ++ x :: skipn i l.

(** [x in l] for a list of [str]. *)
Definition str_in (x : str) (l : list str) : bool := existsb (str_eqb x) l.

(** The argument list [__init__] hands to the child, from the directory
    [defs.BINDIR] and the arguments of the program:
    [args.insert(0, os.path.join(defs.BINDIR, 'redshift'))], then
    [args.insert(1, '-v')] unless ['-v'] is in [args]. *)
Definition child_args (bindir : str) (args : list str) : list str :=
  let args := list_insert 0 (os_path_join bindir (lit "redshift")) args in
  if negb (str_in (lit "-v") args) then list_insert 1 (lit "-v") args
  else args.

(** A [dict] from [str] to [str], in insertion order. *)
Fixpoint dict_get (k : str) (d : list (str * str)) : option str :=
  match d with
  | [] => None
  | (k', v') :: d' => if str_eqb k' k then Some v' else dict_get k d'
  end.

(** [d[k] = v]: a key already there keeps its place, a new key goes to
    the end. *)
Fixpoint dict_set (k v : str) (d : list (str * str)) : list (str * str) :=
  match d with
  | [] => [(k, v)]
  | (k', v') :: d' =>
      if str_eqb k' k then (k', v) :: d' else (k', v') :: dict_set k v d'
  end.

(** The targets of
    [env['LANG'] = env['LANGUAGE'] = env['LC_ALL'] = env['LC_MESSAGES'] = 'C'],
    in the order Python assigns them. *)
Definition locale_variables : list str :=
  [lit "LANG"; lit "LANGUAGE"; lit "LC_ALL"; lit "LC_MESSAGES"].

(** [env] in [start_child_process], from [os.environ]. *)
Definition child_env (environ : list (str * str)) : list (str * str) :=
  fold_left (fun env k => dict_set k (lit "C") env) locale_variables environ.

(** [['{}={}'.format(k, v) for k, v in env.items()]] *)
Definition child_envp (environ : list (str * str)) : list str :=
  map (fun kv => fst kv ++ lit "=" ++ snd kv) (child_env environ).

(* ================================================================== *)
(** * More notions for the statements below *)
(* ================================================================== *)

(** The key of a stdout line, if the line matches. *)
Definition line_key (line : str) : option str :=
  match re_match line with
  | Some (key, _) => Some key
  | None => None
  end.

(** What [drain] reads: the text the reads before the first empty one
    decode to, and whether they all decode. *)
Fixpoint drain_text (reads : list (list byte)) : str * bool :=
  match reads with
  | [] => ([], true)
  | r :: reads' =>
      match utf8_decode r with
      | None => ([], false)
      | Some [] => ([], true)
      | Some buf => let '(t, ok) := drain_text reads' in (buf ++ t, ok)
      end
  end.

(** The exit status is a clean one for [GLib.spawn_check_exit_status]. *)
Definition clean_exit (status : Z) : bool :=
  WIFEXITED status && (WEXITSTATUS status =? 0).

(** The suspend timer before any timer has fired: [self.suspend_timer]
    is [None] when nothing is pending and the id of the one pending
    source otherwise, and [GLib.source_remove] has found every source it
    was asked to remove. *)
Definition timer_exact (s : Self) : Prop :=
  match suspend_timer s with
  | None => timeouts s = []
  | Some id => exists t, timeouts s = [t] /\ src_id t = id
  end
  /\ sources_not_found s = [].

(** No timer fires in a run. *)
Definition no_timeout (es : list event) : Prop :=
  forall id, ~ In (Timeout_expired id) es.

(* ================================================================== *)
(** * Properties of the built-ins *)
(* ================================================================== *)

Lemma str_eqb_eq (a b : str) : str_eqb a b = true <-> a = b.
Proof.
  revert b; induction a as [|x a IH]; intros [|y b]; simpl;
    try (split; [discriminate | discriminate]); try tauto.
  rewrite andb_true_iff, N.eqb_eq, IH.
  split; [intros [-> ->]; reflexivity | intros H; inversion H; auto].
Qed.

Lemma str_eqb_refl (a : str) : str_eqb a a = true.
Proof. apply str_eqb_eq; reflexivity. Qed.

Lemma str_eqb_neq (a b : str) : str_eqb a b = false <-> a <> b.
Proof.
  rewrite <- str_eqb_eq. destruct (str_eqb a b); split; congruence.
Qed.

(** [partition] finds the first newline, or none. *)
Lemma partition_nl_none (s : str) :
  ~ In NL s -> partition_nl s = (s, [], []).
Proof.
  induction s as [|c s IH]; simpl; intros H; [reflexivity|].
  destruct (N.eqb_spec c NL) as [->|_]; [tauto|].
  rewrite IH by tauto. reflexivity.
Qed.

Lemma partition_nl_found (first last : str) :
  ~ In NL first ->
  partition_nl (first ++ NL :: last) = (first, [NL], last).
Proof.
  induction first as [|c f IH]; simpl; intros H; [reflexivity|].
  destruct (N.eqb_spec c NL) as [->|_]; [tauto|].
  rewrite IH by tauto. reflexivity.
Qed.

Lemma partition_nl_cases (s : str) :
  (~ In NL s /\ partition_nl s = (s, [], []))
  \/ (exists first last,
        s = first ++ NL :: last /\ ~ In NL first
        /\ partition_nl s = (first, [NL], last)).
Proof.
  induction s as [|c s IH]; simpl.
  - left; split; [tauto | reflexivity].
  - destruct (N.eqb_spec c NL) as [->|Hc].
    + right; exists [], s; simpl; split; [reflexivity | split; [tauto | reflexivity]].
    + destruct IH as [[Hn ->]|(f & l & -> & Hn & ->)].
      * left; split; [intros [H|H]; [congruence | tauto] | reflexivity].
      * right; exists (c :: f), l; simpl.
        split; [reflexivity|].
        split; [intros [H|H]; [congruence | tauto] | reflexivity].
Qed.

(** Strict UTF-8 decoding of a concatenation of well-formed pieces is the
    concatenation of their decodings. *)
Lemma opt_cons_some (c : N) (r : option str) (d : str) :
  opt_cons c r = Some d -> exists d', r = Some d' /\ d = c :: d'.
Proof. destruct r; simpl; intros H; inversion H; eauto. Qed.

Lemma utf8_decode_app_len (n : nat) :
  forall a b da db,
    (List.length a <= n)%nat ->
    utf8_decode a = Some da -> utf8_decode b = Some db ->
    utf8_decode (a ++ b) = Some (da ++ db).
Proof.
  induction n as [|n IH]; intros a b da db Hlen Ha Hb.
  - destruct a; simpl in *; [inversion Ha; assumption | lia].
  - destruct a as [|x0 t0]; [simpl in *; inversion Ha; assumption|].
    simpl in Ha |- *. simpl in Hlen.
    destruct (Byte.to_N x0 <? 128)%N.
    { apply opt_cons_some in Ha as (d' & Ht & ->).
      rewrite (IH t0 b d' db) by (auto; lia). reflexivity. }
    destruct ((194 <=? Byte.to_N x0)%N && (Byte.to_N x0 <=? 223)%N).
    { destruct t0 as [|x1 t1]; [discriminate|]. simpl in Hlen |- *.
      destruct (utf8_cont (Byte.to_N x1)); [|discriminate].
      apply opt_cons_some in Ha as (d' & Ht & ->).
      rewrite (IH t1 b d' db) by (auto; lia). reflexivity. }
    destruct ((224 <=? Byte.to_N x0)%N && (Byte.to_N x0 <=? 239)%N).
    { destruct t0 as [|x1 [|x2 t2]]; try discriminate. simpl in Hlen |- *.
      destruct (utf8_second3 (Byte.to_N x0) (Byte.to_N x1)
                && utf8_cont (Byte.to_N x2)); [|discriminate].
      apply opt_cons_some in Ha as (d' & Ht & ->).
      rewrite (IH t2 b d' db) by (auto; lia). reflexivity. }
    destruct ((240 <=? Byte.to_N x0)%N && (Byte.to_N x0 <=? 244)%N);
      [|discriminate].
    destruct t0 as [|x1 [|x2 [|x3 t3]]]; try discriminate.
    simpl in Hlen |- *.
    destruct (utf8_second4 (Byte.to_N x0) (Byte.to_N x1)
              && utf8_cont (Byte.to_N x2) && utf8_cont (Byte.to_N x3));
      [|discriminate].
    apply opt_cons_some in Ha as (d' & Ht & ->).
    rewrite (IH t3 b d' db) by (auto; lia). reflexivity.
Qed.

Lemma utf8_decode_app (a b : list byte) (da db : str) :
  utf8_decode a = Some da -> utf8_decode b = Some db ->
  utf8_decode (a ++ b) = Some (da ++ db).
Proof. apply (utf8_decode_app_len (List.length a)); lia. Qed.


(** ** The regular expression *)

Lemma span_spec (p : N -> bool) (s a b : str) :
  span p s = (a, b) ->
  s = a ++ b /\ Forall (fun c => p c = true) a
  /\ match b with c :: _ => p c = false | [] => True end.
Proof.
  revert a b; induction s as [|c s IH]; simpl; intros a b H.
  - inversion H; subst; auto.
  - destruct (p c) eqn:Hc.
    + destruct (span p s) as [a' b'] eqn:Hs. inversion H; subst.
      destruct (IH a' b eq_refl) as (-> & Ha & Hb).
      split; [reflexivity | split; [constructor; assumption | assumption]].
    + inversion H; subst. simpl. rewrite Hc. auto.
Qed.

Lemma span_stop (p : N -> bool) (a b : str) :
  Forall (fun c => p c = true) a ->
  match b with c :: _ => p c = false | [] => True end ->
  span p (a ++ b) = (a, b).
Proof.
  intros Ha Hb. induction Ha as [|c a Hc Ha IH]; simpl.
  - destruct b as [|c b]; simpl; [reflexivity | rewrite Hb; reflexivity].
  - rewrite Hc, IH. reflexivity.
Qed.

Lemma colon_not_key_char : key_char 58 = false.
Proof. reflexivity. Qed.

(** What a match says about the line. *)
Lemma re_match_some (line key value : str) :
  re_match line = Some (key, value) ->
  exists tail,
    line = key ++ lit ": " ++ value ++ tail
    /\ key <> [] /\ Forall (fun c => key_char c = true) key
    /\ value <> [] /\ Forall (fun c => dot c = true) value
    /\ match tail with c :: _ => c = NL | [] => True end.
Proof.
  unfold re_match. destruct (span key_char line) as [k r] eqn:Hk.
  apply span_spec in Hk as (-> & Hkc & _).
  destruct k as [|k0 k]; [discriminate|].
  destruct r as [|c1 [|c2 rest]]; try discriminate.
  destruct (N.eqb_spec c1 58) as [->|]; [|discriminate].
  destruct (N.eqb_spec c2 32) as [->|]; [|discriminate]. simpl.
  destruct (span dot rest) as [v t] eqn:Hv.
  apply span_spec in Hv as (-> & Hvd & Ht).
  destruct v as [|v0 v]; [discriminate|].
  intros H; inversion H; subst. exists t.
  split; [reflexivity|]. split; [discriminate|]. split; [assumption|].
  split; [discriminate|]. split; [assumption|].
  destruct t as [|c t]; [exact I|].
  unfold dot in Ht. apply negb_false_iff, N.eqb_eq in Ht. assumption.
Qed.

(** Every line of this form matches, with these groups. *)
Lemma re_match_complete (key value tail : str) :
  key <> [] -> Forall (fun c => key_char c = true) key ->
  value <> [] -> Forall (fun c => dot c = true) value ->
  match tail with c :: _ => c = NL | [] => True end ->
  re_match (key ++ lit ": " ++ value ++ tail) = Some (key, value).
Proof.
  intros Hk Hkc Hv Hvd Ht. unfold re_match.
  rewrite (@span_stop key_char key (lit ": " ++ value ++ tail) Hkc)
    by exact colon_not_key_char.
  destruct key as [|k0 k]; [congruence|]. simpl.
  rewrite (@span_stop dot value tail Hvd).
  - destruct value; [congruence | reflexivity].
  - destruct tail as [|c t]; [exact I | subst; reflexivity].
Qed.

Lemma re_match_shape (line key value : str) :
  re_match line = Some (key, value) -> kv_shape line.
Proof.
  intros H. apply re_match_some in H as (tail & -> & Hk & Hkc & Hv & _ & _).
  exists key, (value ++ tail). repeat split; try assumption.
  destruct value; [congruence | discriminate].
Qed.

(** X3.  On a line that holds no newline, as every line [child_data_cb]
    splits off, the regular expression matches exactly when the line has
    the shape the specification words. *)
Lemma kv_shape_iff_match (line : str) :
  ~ In NL line ->
  kv_shape line <-> exists key value, re_match line = Some (key, value).
Proof.
  intros Hnl. split.
  - intros (key & rest & Hk & Hkc & Hr & ->).
    exists key, rest.
    rewrite <- (app_nil_r rest) at 1.
    apply re_match_complete; try assumption; [|exact I].
    apply Forall_forall. intros c Hc. unfold dot.
    apply negb_true_iff, N.eqb_neq. intros ->. apply Hnl.
    apply in_or_app; right. apply in_or_app; right. assumption.
  - intros (key & value & Hm). exact (re_match_shape _ _ _ Hm).
Qed.

Lemma kv_shape_colon (line : str) : kv_shape line -> In 58%N line.
Proof.
  intros (key & rest & _ & _ & _ & ->).
  apply in_or_app; right; left; reflexivity.
Qed.

Lemma str_format_location (word : str) (location : list str) :
  str_format location_template (word :: location) = None
  <-> (List.length location < 2)%nat.
Proof.
  destruct location as [|a [|b l]]; simpl; split;
    solve [ reflexivity | lia | discriminate | intros; lia ].
Qed.

(** ** [int] and [str] *)

Lemma log2_div10 (n : N) : (10 <= n)%N -> (N.log2 (n / 10) < N.log2 n)%N.
Proof.
  intros Hn.
  assert (Hm : (0 < n / 10)%N).
  { apply N.div_str_pos. lia. }
  pose proof (N.Div0.mul_div_le n 10) as Hle.
  pose proof (N.log2_double (n / 10) Hm) as Hd.
  pose proof (N.log2_le_mono (2 * (n / 10)) n ltac:(lia)) as Hmono.
  lia.
Qed.

(** The value of a list of digits, the last digit first. *)
Lemma digits_le_spec (fuel : nat) :
  forall n,
    (N.to_nat (N.log2 n) < fuel)%nat ->
    digits_le fuel n <> []
    /\ Forall (fun d => (d < 10)%N) (digits_le fuel n)
    /\ fold_right (fun d acc => (d + 10 * acc)%N) 0%N (digits_le fuel n) = n.
Proof.
  induction fuel as [|fuel IH]; intros n Hf; [lia|].
  cbn [digits_le]. destruct (N.ltb_spec n 10) as [Hn|Hn].
  - split; [discriminate|]. split; [repeat constructor; assumption|].
    cbn [fold_right]. lia.
  - pose proof (log2_div10 n Hn) as Hlog.
    destruct (IH (n / 10)%N) as (_ & Hall & Hval); [lia|].
    split; [discriminate|]. split.
    + constructor; [|assumption]. apply N.mod_lt. lia.
    + cbn [fold_right]. rewrite Hval.
      pose proof (N.div_mod n 10 ltac:(lia)). lia.
Qed.

(** A number written with [k] digits lies below [10 ^ k] and, when it is
    not zero, not below [10 ^ (k - 1)]: no leading zero is written. *)
Lemma digits_le_length (fuel : nat) :
  forall n,
    (N.to_nat (N.log2 n) < fuel)%nat ->
    Z.of_N n < 10 ^ Z.of_nat (List.length (digits_le fuel n))
    /\ ((0 < n)%N ->
        10 ^ (Z.of_nat (List.length (digits_le fuel n)) - 1) <= Z.of_N n).
Proof.
  induction fuel as [|fuel IH]; intros n Hf; [lia|].
  cbn [digits_le]. destruct (N.ltb_spec n 10) as [Hn|Hn].
  - cbn [List.length]. change (10 ^ Z.of_nat 1) with 10.
    change (10 ^ (Z.of_nat 1 - 1)) with 1. lia.
  - pose proof (log2_div10 n Hn) as Hlog.
    assert (Hf' : (N.to_nat (N.log2 (n / 10)) < fuel)%nat) by lia.
    destruct (IH (n / 10)%N Hf') as (Hup & Hlow).
    destruct (digits_le_spec fuel (n / 10)%N Hf') as (Hne & _ & _).
    pose proof (N.div_mod n 10 ltac:(lia)) as Hdm.
    pose proof (N.mod_lt n 10 ltac:(lia)) as Hr.
    assert (Hq : (0 < n / 10)%N) by (apply N.div_str_pos; lia).
    specialize (Hlow Hq).
    cbn [List.length]. rewrite Nat2Z.inj_succ.
    set (k := Z.of_nat (List.length (digits_le fuel (n / 10)%N))) in *.
    assert (Hk : 1 <= k).
    { subst k. destruct (digits_le fuel (n / 10)%N); [congruence|].
      cbn [List.length]. lia. }
    rewrite Z.pow_succ_r by lia.
    replace (Z.succ k - 1) with (Z.succ (k - 1)) by lia.
    rewrite Z.pow_succ_r by lia.
    set (P := 10 ^ k) in *. set (Q := 10 ^ (k - 1)) in *. clearbody P Q.
    clear IH Hne Hf Hf' Hlog. clearbody k.
    set (q := (n / 10)%N) in *. set (r := (n mod 10)%N) in *.
    clearbody q r.
    split; [|intros _]; lia.
Qed.

Lemma str_of_nat_length (n : N) (k : N) :
  (1 <= k)%N ->
  (N.of_nat (List.length (str_of_nat n)) <= k)%N
  <-> Z.of_N n < 10 ^ Z.of_N k.
Proof.
  intros Hk. unfold str_of_nat. rewrite length_map, length_rev.
  destruct (digits_le_length (S (N.to_nat (N.log2 n))) n
              (Nat.lt_succ_diag_r _)) as (Hup & Hlow).
  destruct (digits_le_spec (S (N.to_nat (N.log2 n))) n
              (Nat.lt_succ_diag_r _)) as (Hne & _ & _).
  set (l := digits_le (S (N.to_nat (N.log2 n))) n) in *.
  split.
  - intros Hlen.
    apply Z.lt_le_trans with (1 := Hup).
    apply Z.pow_le_mono_r; lia.
  - intros Hlt.
    destruct (N.eq_dec n 0) as [->|Hn].
    + subst l. cbn. lia.
    + assert (H : 10 ^ (Z.of_nat (List.length l) - 1) < 10 ^ Z.of_N k).
      { apply Z.le_lt_trans with (2 := Hlt). apply Hlow. lia. }
      apply Z.pow_lt_mono_r_iff in H; lia.
Qed.


Lemma digit_char (d : N) :
  (d < 10)%N ->
  digit_value (48 + d) = Some (Z.of_N d)
  /\ ascii_space (48 + d) = false
  /\ ((48 + d =? 43)%N = false /\ (48 + d =? 45)%N = false)
  /\ ((48 + d <? 128)%N = true /\ 48 + d <> 75 /\ 48 + d <> NL)%N.
Proof.
  intros Hd. unfold digit_value, ascii_space, NL.
  replace (48 + d - 48)%N with d by lia.
  destruct (N.leb_spec 48 (48 + d)); [|lia].
  destruct (N.leb_spec (48 + d) 57); [|lia].
  destruct (N.leb_spec (48 + d) 13); [lia|].
  destruct (N.eqb_spec (48 + d) 32); [lia|].
  destruct (N.eqb_spec (48 + d) 43); [lia|].
  destruct (N.eqb_spec (48 + d) 45); [lia|].
  destruct (N.ltb_spec (48 + d) 128); [|lia].
  rewrite andb_false_r. cbn [andb orb].
  repeat split; solve [reflexivity | lia].
Qed.

(** A text of ASCII digits, as digit values. *)
Lemma digits_of_chars (ds : str) :
  Forall (fun c => (48 <= c <= 57)%N) ds ->
  exists bs,
    ds = map (fun d => (48 + d)%N) bs /\ Forall (fun d => (d < 10)%N) bs.
Proof.
  induction 1 as [|c ds Hc _ (bs & -> & Hbs)].
  - exists []. split; [reflexivity | constructor].
  - exists ((c - 48)%N :: bs). split.
    + cbn [map]. f_equal. lia.
    + constructor; [lia | assumption].
Qed.

Lemma scan_digits_digits (bs : list N) :
  Forall (fun d => (d < 10)%N) bs ->
  forall acc,
    scan_digits acc false (map (fun d => (48 + d)%N) bs)
    = Some (fold_left (fun a d => 10 * a + Z.of_N d) bs acc, []).
Proof.
  induction 1 as [|d bs Hd _ IH]; intros acc; [reflexivity|].
  cbn [map scan_digits fold_left].
  rewrite (proj1 (digit_char d Hd)). apply IH.
Qed.

Lemma count_digits_digits (bs : list N) :
  Forall (fun d => (d < 10)%N) bs ->
  count_digits (map (fun d => (48 + d)%N) bs) = N.of_nat (List.length bs).
Proof.
  induction 1 as [|d bs Hd _ IH]; [reflexivity|].
  cbn [map count_digits List.length].
  rewrite (proj1 (digit_char d Hd)), IH. lia.
Qed.

(** What the scan reads from [k] digits lies below [10 ^ k]. *)
Lemma scan_digits_bound (s : str) :
  forall acc p n rest,
    scan_digits acc p s = Some (n, rest) ->
    0 <= acc ->
    acc * 10 ^ Z.of_N (count_digits s) <= n
    /\ n < (acc + 1) * 10 ^ Z.of_N (count_digits s).
Proof.
  induction s as [|c s IH]; intros acc p n rest Hs Hacc;
    cbn [scan_digits count_digits] in *.
  - change (10 ^ Z.of_N 0) with 1.
    destruct p; inversion Hs; subst. lia.
  - destruct (digit_value c) as [d|] eqn:Hd.
    + assert (Hd9 : 0 <= d <= 9).
      { unfold digit_value in Hd.
        destruct (N.leb_spec 48 c); [|discriminate].
        destruct (N.leb_spec c 57); [|discriminate].
        cbn [andb] in Hd. inversion Hd; subst. lia. }
      destruct (IH _ _ _ _ Hs ltac:(lia)) as (Hlo & Hhi).
      rewrite N2Z.inj_succ, Z.pow_succ_r by lia.
      set (P := 10 ^ Z.of_N (count_digits s)) in *.
      assert (HP : 0 < P) by (subst P; apply Z.pow_pos_nonneg; lia).
      split; nia.
    + destruct (c =? 95)%N.
      * destruct p; [discriminate|]. exact (IH _ _ _ _ Hs Hacc).
      * change (10 ^ Z.of_N 0) with 1.
        destruct p; inversion Hs; subst. lia.
Qed.

Lemma to_ascii_ascii (s : str) :
  forallb (fun c => (c <? 128)%N) s = true -> to_ascii s = s.
Proof. intros H. unfold to_ascii. rewrite H. reflexivity. Qed.

(** Whatever [int] returns has at most [default_max_str_digits] digits,
    so [str] can write it. *)
Lemma int10_bound (s : str) (n : Z) :
  int10 s = Some n -> Z.abs n < 10 ^ Z.of_N default_max_str_digits.
Proof.
  assert (Hbody : forall (sign : Z) (t : str),
            (sign = 1 \/ sign = -1) ->
            match t with
            | c :: _ =>
                match digit_value c with
                | None => None
                | Some _ =>
                    match scan_digits 0 false t with
                    | Some (m, rest) =>
                        if (default_max_str_digits <? count_digits t)%N
                        then None
                        else match lstrip_space rest with
                             | [] => Some (sign * m)
                             | _ => None
                             end
                    | None => None
                    end
                end
            | [] => None
            end = Some n ->
            Z.abs n < 10 ^ Z.of_N default_max_str_digits).
  { intros sign t Hsign H.
    destruct t as [|c t]; [discriminate|].
    destruct (digit_value c); [|discriminate].
    destruct (scan_digits 0 false (c :: t)) as [[m rest]|] eqn:Hs;
      [|discriminate].
    destruct (N.ltb_spec default_max_str_digits (count_digits (c :: t)))
      as [Hc|Hc]; [discriminate|].
    destruct (lstrip_space rest); [|discriminate].
    inversion H; subst n.
    destruct (scan_digits_bound _ _ _ _ _ Hs (Z.le_refl 0)) as (Hlo & Hhi).
    assert (Hle : 10 ^ Z.of_N (count_digits (c :: t))
                  <= 10 ^ Z.of_N default_max_str_digits).
    { apply Z.pow_le_mono_r; lia. }
    set (P := 10 ^ Z.of_N (count_digits (c :: t))) in *.
    set (Q := 10 ^ Z.of_N default_max_str_digits) in *.
    destruct Hsign as [-> | ->]; lia. }
  unfold int10.
  destruct (lstrip_space (to_ascii s)) as [|c r]; [discriminate|].
  destruct (c =? 43)%N; [exact (Hbody 1 r (or_introl eq_refl))|].
  destruct (c =? 45)%N; [exact (Hbody (-1) r (or_intror eq_refl))|].
  exact (Hbody 1 (c :: r) (or_introl eq_refl)).
Qed.

(** [int] on a text of digits, with and without a minus sign: the value
    when there are no more than [default_max_str_digits] of them, an
    exception when there are more. *)
Lemma int10_digits (bs : list N) :
  bs <> [] -> Forall (fun d => (d < 10)%N) bs ->
  ((N.of_nat (List.length bs) <= default_max_str_digits)%N ->
   int10 (map (fun d => (48 + d)%N) bs)
   = Some (fold_left (fun a d => 10 * a + Z.of_N d) bs 0)
   /\ int10 (45%N :: map (fun d => (48 + d)%N) bs)
      = Some (- fold_left (fun a d => 10 * a + Z.of_N d) bs 0))
  /\ ((default_max_str_digits < N.of_nat (List.length bs))%N ->
      int10 (map (fun d => (48 + d)%N) bs) = None
      /\ int10 (45%N :: map (fun d => (48 + d)%N) bs) = None).
Proof.
  intros Hne Hall.
  assert (Hascii : forallb (fun c => (c <? 128)%N)
                     (map (fun d => (48 + d)%N) bs) = true).
  { apply forallb_forall. intros c Hc.
    apply in_map_iff in Hc as (d & <- & Hd).
    rewrite Forall_forall in Hall. apply (digit_char d (Hall d Hd)). }
  pose proof (scan_digits_digits bs Hall 0) as Hscan.
  pose proof (count_digits_digits bs Hall) as Hcount.
  destruct bs as [|b0 bs]; [congruence|].
  inversion Hall as [|? ? Hb0 _]; subst.
  destruct (digit_char b0 Hb0) as (Hdv & Hsp & [H43 H45] & _).
  assert (Hplain : int10 (map (fun d => (48 + d)%N) (b0 :: bs))
                   = if (default_max_str_digits
                         <? N.of_nat (List.length (b0 :: bs)))%N
                     then None
                     else Some (fold_left (fun a d => 10 * a + Z.of_N d)
                                  (b0 :: bs) 0)).
  { unfold int10. rewrite (to_ascii_ascii _ Hascii).
    cbn [map lstrip_space] in *. rewrite Hsp, H43, H45, Hdv, Hscan, Hcount.
    destruct (default_max_str_digits <? N.of_nat (List.length (b0 :: bs)))%N;
      [reflexivity|].
    cbn [lstrip_space]. f_equal; lia. }
  assert (Hminus : int10 (45%N :: map (fun d => (48 + d)%N) (b0 :: bs))
                   = if (default_max_str_digits
                         <? N.of_nat (List.length (b0 :: bs)))%N
                     then None
                     else Some (- fold_left (fun a d => 10 * a + Z.of_N d)
                                    (b0 :: bs) 0)).
  { unfold int10. rewrite to_ascii_ascii by (simpl; exact Hascii).
    cbn [map lstrip_space] in *.
    change (ascii_space 45) with false. cbn iota beta.
    change (45 =? 43)%N with false. change (45 =? 45)%N with true.
    cbn iota beta. rewrite Hdv, Hscan, Hcount.
    destruct (default_max_str_digits <? N.of_nat (List.length (b0 :: bs)))%N;
      [reflexivity|].
    cbn [lstrip_space]. f_equal; lia. }
  rewrite Hplain, Hminus.
  split; intros Hlen.
  - apply N.ltb_ge in Hlen. rewrite Hlen. split; reflexivity.
  - apply N.ltb_lt in Hlen. rewrite Hlen. split; reflexivity.
Qed.


(** [str] writes the integers of at most [default_max_str_digits] digits
    and no other. *)
Lemma str_of_int_limit (i : Z) :
  (Z.abs i < 10 ^ Z.of_N default_max_str_digits ->
   exists digits, str_of_int i = Some digits)
  /\ (10 ^ Z.of_N default_max_str_digits <= Z.abs i ->
      str_of_int i = None).
Proof.
  pose proof (str_of_nat_length (Z.abs_N i) default_max_str_digits
                ltac:(discriminate)) as Hlen.
  rewrite N2Z.inj_abs_N in Hlen.
  unfold str_of_int.
  destruct (N.ltb_spec default_max_str_digits
              (N.of_nat (List.length (str_of_nat (Z.abs_N i))))) as [Hl|Hl].
  - split; [|reflexivity].
    intros Hi. apply Hlen in Hi. lia.
  - split; [eexists; reflexivity|].
    intros Hi. apply Hlen in Hl.
    set (Q := 10 ^ Z.of_N default_max_str_digits) in *. lia.
Qed.


Lemma rstrip_suffix (ch : N) (v : str) :
  Forall (fun c => c <> ch) v -> rstrip ch (v ++ [ch]) = v.
Proof.
  induction 1 as [|c v Hc _ IH]; simpl.
  - rewrite N.eqb_refl. reflexivity.
  - rewrite IH. destruct v; [|reflexivity].
    destruct (N.eqb_spec c ch); [contradiction | reflexivity].
Qed.

(** What [int] has read, [change_temperature] can write on its label. *)
Lemma change_temperature_run (temperature : Z) (s : Self) :
  change_temperature temperature s
  = (match str_of_int temperature with
     | Some _ => Return tt
     | None => Raise ValueError
     end, set_temperature temperature s).
Proof.
  unfold change_temperature, temperature_markup, bind, modify, ret, raise.
  destruct (str_of_int temperature); reflexivity.
Qed.

(* ================================================================== *)
(** * The decoder: what one stdout line does *)
(* ================================================================== *)

Ltac run_monad :=
  unfold toggle_cb, suspend_cb, reenable_cb, remove_suspend_timer,
    child_toggle_status, is_enabled, toggle_item_set_active,
    toggle_item_cb, change_status, change_temperature, change_period,
    change_location, os_kill, glib_source_remove,
    glib_timeout_add_seconds, gtk_main_quit, sys_exit,
    exec, result, bind, ret, raise, gets, modify in *.

Lemma change_status_run (status : bool) (s : Self) :
  change_status status s
  = (Return tt, set_toggle_item_active status (set_status status s)).
Proof.
  destruct s as [st te pe lo ti ib eb er ac tm ns ck nf mq sg ed yl].
  destruct status, ac; reflexivity.
Qed.

Lemma child_key_change_cb_decoded (key value : str) (s : Self) :
  child_key_change_cb key value s = decoded key value s.
Proof.
  unfold child_key_change_cb, decoded.
  destruct (str_eqb key (lit "Status")); [apply change_status_run|].
  destruct (str_eqb key (lit "Color temperature")).
  { destruct (int10 (rstrip 75 value)) as [n|] eqn:Hn; [|reflexivity].
    rewrite change_temperature_run.
    destruct (proj1 (str_of_int_limit n) (int10_bound _ _ Hn)) as (d & ->).
    reflexivity. }
  destruct (str_eqb key (lit "Period")); [reflexivity|].
  destruct (str_eqb key (lit "Location")); [|reflexivity].
  unfold change_location, bind, modify.
  destruct (str_format location_template
              (lit "Location" :: split2 44 32 value)) eqn:Hf.
  - destruct (Nat.ltb_spec (List.length (split2 44 32 value)) 2) as [Hl|Hl];
      [|reflexivity].
    apply (proj2 (str_format_location (lit "Location") _)) in Hl.
    congruence.
  - apply (proj1 (str_format_location (lit "Location") _)) in Hf.
    apply Nat.ltb_lt in Hf. rewrite Hf. reflexivity.
Qed.

Lemma child_stdout_line_cb_match (line key value : str) (s : Self) :
  re_match line = Some (key, value) ->
  child_stdout_line_cb line s = decoded key value s.
Proof.
  intros H. unfold child_stdout_line_cb. rewrite H.
  destruct line; [discriminate|]. apply child_key_change_cb_decoded.
Qed.

Lemma child_stdout_line_cb_nomatch (line : str) (s : Self) :
  re_match line = None -> child_stdout_line_cb line s = (Return tt, s).
Proof.
  intros H. unfold child_stdout_line_cb. rewrite H.
  destruct line; reflexivity.
Qed.

(** A "Color temperature" line whose value is a text without "K" and
    without a newline, followed by one "K": the decoder hands that text to
    [int]. *)
Lemma temperature_line_decoded (v : str) (s : Self) :
  Forall (fun c => c <> 75%N /\ c <> NL) v ->
  child_stdout_line_cb (lit "Color temperature: " ++ v ++ lit "K") s
  = match int10 v with
    | Some n => (Return tt, set_temperature n s)
    | None => (Raise ValueError, s)
    end.
Proof.
  intros Hchars.
  assert (Hm : re_match (lit "Color temperature: " ++ v ++ lit "K")
               = Some (lit "Color temperature", v ++ lit "K")).
  { rewrite <- (app_nil_r (v ++ lit "K")) at 1.
    change (lit "Color temperature: " ++ (v ++ lit "K") ++ [])
      with (lit "Color temperature" ++ lit ": " ++ (v ++ lit "K") ++ []).
    apply re_match_complete.
    - discriminate.
    - repeat constructor.
    - destruct v; discriminate.
    - apply Forall_app. split.
      + eapply Forall_impl; [|exact Hchars].
        intros c [_ Hnl]. unfold dot. apply negb_true_iff, N.eqb_neq.
        assumption.
      + repeat constructor.
    - exact I. }
  rewrite (child_stdout_line_cb_match _ _ _ s Hm). unfold decoded.
  change (str_eqb (lit "Color temperature") (lit "Status")) with false.
  rewrite str_eqb_refl.
  change (lit "K") with [75%N].
  rewrite (rstrip_suffix 75 v); [reflexivity|].
  eapply Forall_impl; [|exact Hchars]. intros c [H75 _]. assumption.
Qed.


(** [split] cuts the value at the separators and nowhere else: joining
    the pieces with the separator gives the value back. *)
Lemma split2_from_nonempty (a b : N) (s cur : str) :
  split2_from a b cur s <> [].
Proof.
  revert cur; induction s as [|c s IH]; intros cur; simpl; [discriminate|].
  destruct s as [|d s]; [discriminate|].
  destruct ((c =? a)%N && (d =? b)%N); [discriminate | apply IH].
Qed.

Lemma join_cons (sep p : str) (ps : list str) :
  ps <> [] -> join sep (p :: ps) = p ++ sep ++ join sep ps.
Proof. destruct ps; [congruence | reflexivity]. Qed.

Lemma split2_from_cons2 (a b : N) (cur : str) (c d : N) (s : str) :
  split2_from a b cur (c :: d :: s)
  = if (c =? a)%N && (d =? b)%N
    then rev cur :: split2_from a b [] s
    else split2_from a b (c :: cur) (d :: s).
Proof. reflexivity. Qed.

Lemma split2_from_join_len (a b : N) (n : nat) :
  forall s cur, (List.length s <= n)%nat ->
    join [a; b] (split2_from a b cur s) = rev cur ++ s.
Proof.
  induction n as [|n IH]; intros s cur Hlen.
  - destruct s; simpl in *; [rewrite app_nil_r; reflexivity | lia].
  - destruct s as [|c [|d s]].
    + simpl. rewrite app_nil_r; reflexivity.
    + reflexivity.
    + rewrite split2_from_cons2. simpl in Hlen.
      destruct ((c =? a)%N && (d =? b)%N) eqn:Hsep.
      * apply andb_true_iff in Hsep as [Hc Hd].
        apply N.eqb_eq in Hc, Hd. subst c d.
        rewrite join_cons by apply split2_from_nonempty.
        rewrite IH by lia. reflexivity.
      * rewrite (IH (d :: s)) by (simpl; lia). simpl.
        rewrite <- app_assoc. reflexivity.
Qed.

Lemma split2_join (a b : N) (s : str) : join [a; b] (split2 a b s) = s.
Proof. exact (split2_from_join_len a b (List.length s) s [] (le_n _)). Qed.

(* ================================================================== *)
(** * The claims about the decoder *)
(* ================================================================== *)

(** C2.  Decoding the stdout line "Status: Disabled" sets the enabled flag
    to false, and a Status line with any other value ("Status: Enabled"
    among them) sets it to true; "Color temperature: 4500K" sets the
    temperature to the integer 4500, and in general to the base-10 value of
    what is left of the value once its trailing K's are stripped;
    "Period: Night" sets the period to the text "Night".  None of these
    raises. *)
Theorem C2_decode_status_temperature_period (s : Self) :
  (result (child_stdout_line_cb (lit "Status: Disabled")) s = Return tt
   /\ _status (exec (child_stdout_line_cb (lit "Status: Disabled")) s) = false)
  /\ (result (child_stdout_line_cb (lit "Status: Enabled")) s = Return tt
      /\ _status (exec (child_stdout_line_cb (lit "Status: Enabled")) s) = true)
  /\ (forall line value,
        re_match line = Some (lit "Status", value) ->
        value <> lit "Disabled" ->
        result (child_stdout_line_cb line) s = Return tt
        /\ _status (exec (child_stdout_line_cb line) s) = true)
  /\ (result (child_stdout_line_cb (lit "Color temperature: 4500K")) s
        = Return tt
      /\ _temperature
           (exec (child_stdout_line_cb (lit "Color temperature: 4500K")) s)
         = 4500)
  /\ (forall line value n,
        re_match line = Some (lit "Color temperature", value) ->
        int10 (rstrip 75 value) = Some n ->
        result (child_stdout_line_cb line) s = Return tt
        /\ _temperature (exec (child_stdout_line_cb line) s) = n)
  /\ (result (child_stdout_line_cb (lit "Period: Night")) s = Return tt
      /\ _period (exec (child_stdout_line_cb (lit "Period: Night")) s)
         = lit "Night").
Proof.
  unfold result, exec.
  split.
  { rewrite (@child_stdout_line_cb_match _ (lit "Status") (lit "Disabled"))
      by reflexivity.
    split; reflexivity. }
  split.
  { rewrite (@child_stdout_line_cb_match _ (lit "Status") (lit "Enabled"))
      by reflexivity.
    split; reflexivity. }
  split.
  { intros line value Hm Hv.
    rewrite (child_stdout_line_cb_match _ _ _ s Hm). unfold decoded.
    rewrite str_eqb_refl.
    apply str_eqb_neq in Hv. rewrite Hv. split; reflexivity. }
  split.
  { rewrite (@child_stdout_line_cb_match _ (lit "Color temperature")
               (lit "4500K")) by reflexivity.
    split; reflexivity. }
  split.
  { intros line value n Hm Hn.
    rewrite (child_stdout_line_cb_match _ _ _ s Hm). unfold decoded.
    change (str_eqb (lit "Color temperature") (lit "Status")) with false.
    rewrite str_eqb_refl, Hn. split; reflexivity. }
  rewrite (@child_stdout_line_cb_match _ (lit "Period") (lit "Night"))
    by reflexivity.
  split; reflexivity.
Qed.

(** C3 (amended).  Decoding a stdout line "Location: <v>" cuts the value at
    every ", " and stores the list of the pieces, as text and not as
    floats, as the location: joined with ", " the stored pieces give the
    value back.  In particular "Location: 51.50, -0.12" stores the two
    strings "51.50" and "-0.12". *)
Theorem C3_location_stored_as_split_text (line value : str) (s : Self) :
  re_match line = Some (lit "Location", value) ->
  _location (exec (child_stdout_line_cb line) s)
    = StrList (split2 44 32 value)
  /\ join (lit ", ") (split2 44 32 value) = value
  /\ _location (exec (child_stdout_line_cb (lit "Location: 51.50, -0.12")) s)
     = StrList [lit "51.50"; lit "-0.12"].
Proof.
  intros Hm. unfold exec. split; [|split].
  - rewrite (child_stdout_line_cb_match _ _ _ s Hm). reflexivity.
  - apply split2_join.
  - rewrite (@child_stdout_line_cb_match _ (lit "Location")
               (lit "51.50, -0.12")) by reflexivity.
    reflexivity.
Qed.

(** C4.  A stdout line that does not have the shape "one or more word
    characters or spaces, colon, space, remainder" (a line with no colon,
    the empty line) produces no event: the decoder returns normally and
    leaves the whole object, and so the enabled flag, the temperature, the
    period and the location, as it was. *)
Theorem C4_unmatched_line_ignored (line : str) (s : Self) :
  ~ kv_shape line ->
  child_stdout_line_cb line s = (Return tt, s).
Proof.
  intros Hshape. apply child_stdout_line_cb_nomatch.
  destruct (re_match line) as [[key value]|] eqn:Hm; [|reflexivity].
  exfalso. apply Hshape. exact (re_match_shape _ _ _ Hm).
Qed.

(** C10 (amended).  A stdout line with key "Color temperature" whose value,
    its trailing K's stripped, [int(., 10)] does not accept makes the
    decoder raise ValueError: the line is not ignored and nothing catches
    the exception.  [int] refuses what is no base-10 integer literal and,
    with the limit CPython sets by default, every literal of more than 4300
    digits: a value of digits followed by "K" raises exactly when it has
    more than 4300 of them.  These are not the only lines that raise: a
    "Location" line whose value holds no ", " raises IndexError.  Every
    other line is decoded or ignored without an exception. *)
Theorem C10_decoder_exceptions (line : str) (s : Self) :
  (forall value,
     re_match line = Some (lit "Color temperature", value) ->
     int10 (rstrip 75 value) = None ->
     child_stdout_line_cb line s = (Raise ValueError, s))
  /\ (forall e,
        result (child_stdout_line_cb line) s = Raise e <->
        (e = ValueError
         /\ exists value,
              re_match line = Some (lit "Color temperature", value)
              /\ int10 (rstrip 75 value) = None)
        \/ (e = IndexError
            /\ exists value,
                 re_match line = Some (lit "Location", value)
                 /\ (List.length (split2 44 32 value) < 2)%nat))
  /\ (forall digits,
        digits <> [] ->
        Forall (fun c => (48 <= c <= 57)%N) digits ->
        line = lit "Color temperature: " ++ digits ++ lit "K" ->
        (result (child_stdout_line_cb line) s = Raise ValueError
         <-> (default_max_str_digits < N.of_nat (List.length digits))%N)).
Proof.
  split.
  { intros value Hm Hn. rewrite (child_stdout_line_cb_match _ _ _ s Hm).
    unfold decoded.
    change (str_eqb (lit "Color temperature") (lit "Status")) with false.
    rewrite str_eqb_refl, Hn. reflexivity. }
  split.
  2:{ intros digits Hne Hdig ->.
      destruct (digits_of_chars digits Hdig) as (bs & -> & Hbs).
      assert (Hbne : bs <> []) by (destruct bs; [exact Hne | discriminate]).
      assert (Hchars : Forall (fun c => c <> 75%N /\ c <> NL)
                         (map (fun d => (48 + d)%N) bs)).
      { apply Forall_forall. intros c Hc.
        apply in_map_iff in Hc as (d & <- & Hd).
        rewrite Forall_forall in Hbs.
        destruct (digit_char d (Hbs d Hd)) as (_ & _ & _ & _ & H75 & Hnl).
        split; assumption. }
      unfold result. rewrite (temperature_line_decoded _ s Hchars).
      rewrite length_map.
      destruct (int10_digits bs Hbne Hbs) as (Hin & Hout).
      destruct (N.lt_ge_cases default_max_str_digits
                  (N.of_nat (List.length bs))) as [Hl|Hl].
      - rewrite (proj1 (Hout Hl)). simpl. split; [intros _; exact Hl|].
        reflexivity.
      - rewrite (proj1 (Hin Hl)). simpl. split; [discriminate|].
        intros Hl'. apply N.lt_nge in Hl'. contradiction. }
  intros e. unfold result.
  destruct (re_match line) as [[key value]|] eqn:Hm.
  2:{ rewrite (child_stdout_line_cb_nomatch _ s Hm). simpl.
      split; [discriminate|].
      intros [(_ & v & Hv & _)|(_ & v & Hv & _)]; discriminate. }
  rewrite (child_stdout_line_cb_match _ _ _ s Hm). unfold decoded.
  destruct (str_eqb key (lit "Status")) eqn:K1.
  { apply str_eqb_eq in K1; subst key. simpl. split; [discriminate|].
    intros [(_ & v & Hv & _)|(_ & v & Hv & _)]; discriminate. }
  destruct (str_eqb key (lit "Color temperature")) eqn:K2.
  { apply str_eqb_eq in K2; subst key.
    destruct (int10 (rstrip 75 value)) eqn:Hn; simpl.
    - split; [discriminate|].
      intros [(_ & v & Hv & Hn')|(_ & v & Hv & _)];
        [inversion Hv; subst; congruence | discriminate].
    - split.
      + intros H; inversion H; subst. left; split; [reflexivity|].
        exists value; auto.
      + intros [(-> & _)|(_ & v & Hv & _)]; [reflexivity | discriminate]. }
  destruct (str_eqb key (lit "Period")) eqn:K3.
  { apply str_eqb_eq in K3; subst key. simpl. split; [discriminate|].
    intros [(_ & v & Hv & _)|(_ & v & Hv & _)]; discriminate. }
  destruct (str_eqb key (lit "Location")) eqn:K4.
  { apply str_eqb_eq in K4; subst key.
    destruct (Nat.ltb_spec (List.length (split2 44 32 value)) 2) as [Hl|Hl];
      simpl.
    - split.
      + intros H; inversion H; subst. right; split; [reflexivity|].
        exists value; auto.
      + intros [(_ & v & Hv & _)|(-> & _)]; [discriminate | reflexivity].
    - split; [discriminate|].
      intros [(_ & v & Hv & _)|(_ & v & Hv & Hl')];
        [discriminate | inversion Hv; subst; lia]. }
  simpl. split; [discriminate|].
  apply str_eqb_neq in K2, K4.
  intros [(_ & v & Hv & _)|(_ & v & Hv & _)]; inversion Hv; congruence.
Qed.


(* ================================================================== *)
(** * The line splitter *)
(* ================================================================== *)

Lemma get_set_buf (ib : buffer_ref) (v : str) (s : Self) :
  get_buf ib (set_buf ib v s) = v.
Proof. destruct ib; reflexivity. Qed.

Lemma set_set_buf (ib : buffer_ref) (v w : str) (s : Self) :
  set_buf ib w (set_buf ib v s) = set_buf ib w s.
Proof. destruct ib; reflexivity. Qed.

Lemma set_buf_yielded (ib : buffer_ref) (v : str) (y : list (bool * str))
    (s : Self) :
  set_yielded y (set_buf ib v s) = set_buf ib v (set_yielded y s).
Proof. destruct ib; reflexivity. Qed.

Lemma yielded_set_buf (ib : buffer_ref) (v : str) (s : Self) :
  yielded (set_buf ib v s) = yielded s.
Proof. destruct ib; reflexivity. Qed.

(** A line handler never touches a buffer: it does the same whatever the
    buffer holds, and leaves the buffer and the ghost trace alone. *)
Lemma decoded_set_buf (key value : str) (ib : buffer_ref) (v : str)
    (s : Self) :
  decoded key value (set_buf ib v s)
  = (fst (decoded key value s), set_buf ib v (snd (decoded key value s))).
Proof.
  unfold decoded.
  repeat match goal with
         | |- context [if ?c then _ else _] => destruct c
         | |- context [match ?c with Some _ => _ | None => _ end] =>
             destruct c
         end; destruct ib; reflexivity.
Qed.

Lemma decoded_keeps (key value : str) (s : Self) :
  get_buf Input_buffer (snd (decoded key value s)) = get_buf Input_buffer s
  /\ get_buf Error_buffer (snd (decoded key value s))
     = get_buf Error_buffer s
  /\ yielded (snd (decoded key value s)) = yielded s
  /\ errors (snd (decoded key value s)) = errors s.
Proof.
  unfold decoded.
  repeat match goal with
         | |- context [if ?c then _ else _] => destruct c
         | |- context [match ?c with Some _ => _ | None => _ end] =>
             destruct c
         end; repeat split; reflexivity.
Qed.

Lemma child_stdout_line_cb_decoded (line : str) (s : Self) :
  child_stdout_line_cb line s
  = match re_match line with
    | Some (key, value) => decoded key value s
    | None => (Return tt, s)
    end.
Proof.
  destruct (re_match line) as [[key value]|] eqn:Hm.
  - apply child_stdout_line_cb_match; assumption.
  - apply child_stdout_line_cb_nomatch; assumption.
Qed.

Lemma line_cb_set_buf (stdout : bool) (first : str) (ib : buffer_ref)
    (v : str) (s : Self) :
  line_cb stdout first (set_buf ib v s)
  = (fst (line_cb stdout first s), set_buf ib v (snd (line_cb stdout first s))).
Proof.
  unfold line_cb. destruct stdout.
  - rewrite !child_stdout_line_cb_decoded.
    destruct (re_match first) as [[key value]|];
      [apply decoded_set_buf | reflexivity].
  - destruct ib; reflexivity.
Qed.

Lemma line_cb_keeps (stdout : bool) (first : str) (ib : buffer_ref)
    (s : Self) :
  get_buf ib (snd (line_cb stdout first s)) = get_buf ib s
  /\ yielded (snd (line_cb stdout first s)) = yielded s.
Proof.
  unfold line_cb. destruct stdout.
  - rewrite child_stdout_line_cb_decoded.
    destruct (re_match first) as [[key value]|]; simpl; [|tauto].
    destruct (decoded_keeps key value s) as (Hi & He & Hy & _).
    destruct ib; tauto.
  - destruct ib; split; reflexivity.
Qed.

Lemma line_cb_terminates (stdout : bool) (first : str) (s : Self) :
  fst (line_cb stdout first s) <> Raise NotTerminated.
Proof.
  unfold line_cb. destruct stdout; [|discriminate].
  rewrite child_stdout_line_cb_decoded.
  destruct (re_match first) as [[key value]|]; [|discriminate].
  unfold decoded.
  repeat match goal with
         | |- context [if ?c then _ else _] => destruct c
         | |- context [match ?c with Some _ => _ | None => _ end] =>
             destruct c
         end; discriminate.
Qed.

(** One round of the loop. *)
Lemma split_loop_done (n : nat) (stdout : bool) (ib : buffer_ref)
    (s : Self) :
  ~ In NL (get_buf ib s) ->
  split_loop (S n) stdout ib s = (Return tt, s).
Proof.
  intros H. simpl. unfold bind, gets.
  rewrite (partition_nl_none _ H). reflexivity.
Qed.

Lemma split_loop_round (n : nat) (stdout : bool) (ib : buffer_ref)
    (s : Self) (first last : str) :
  get_buf ib s = first ++ NL :: last -> ~ In NL first ->
  split_loop (S n) stdout ib s
  = match line_cb stdout first
            (set_buf ib last
               (set_yielded (yielded s ++ [(stdout, first)]) s)) with
    | (Return _, s') => split_loop n stdout ib s'
    | (Raise e, s') => (Raise e, s')
    end.
Proof.
  intros Hb Hf. simpl. unfold bind, gets, modify.
  rewrite Hb, (partition_nl_found _ last Hf).
  rewrite set_buf_yielded, yielded_set_buf. reflexivity.
Qed.

(** The buffer after one round, and the fuel it needs. *)
Lemma round_buffer (stdout : bool) (ib : buffer_ref) (s : Self)
    (first last : str) (y : list (bool * str)) :
  get_buf ib (snd (line_cb stdout first (set_buf ib last (set_yielded y s))))
  = last.
Proof.
  rewrite (proj1 (line_cb_keeps stdout first ib _)). apply get_set_buf.
Qed.

Lemma split_loop_fuel (n : nat) :
  forall m stdout ib s,
    (List.length (get_buf ib s) < n)%nat ->
    (List.length (get_buf ib s) < m)%nat ->
    split_loop n stdout ib s = split_loop m stdout ib s.
Proof.
  induction n as [|n IH]; intros m stdout ib s Hn Hm; [lia|].
  destruct m as [|m]; [lia|].
  destruct (partition_nl_cases (get_buf ib s))
    as [[Hnone _]|(first & last & Hb & Hf & _)].
  - rewrite !split_loop_done by assumption. reflexivity.
  - rewrite !(split_loop_round _ _ _ _ _ _ Hb Hf).
    destruct (line_cb stdout first _) as [[u|e] s'] eqn:Hcb; [|reflexivity].
    assert (Hlast : get_buf ib s' = last).
    { pose proof (round_buffer stdout ib s first last
                    (yielded s ++ [(stdout, first)])) as Hr.
      rewrite Hcb in Hr. exact Hr. }
    rewrite Hb, length_app in Hn, Hm. simpl in Hn, Hm.
    apply IH; rewrite Hlast; lia.
Qed.


Lemma lines_of_none (s : str) : ~ In NL s -> lines_of s = ([], s).
Proof.
  induction s as [|c s IH]; simpl; intros H; [reflexivity|].
  rewrite IH by tauto.
  destruct (N.eqb_spec c NL) as [->|_]; [tauto | reflexivity].
Qed.

Lemma lines_of_found (first last : str) :
  ~ In NL first ->
  lines_of (first ++ NL :: last)
  = (first :: fst (lines_of last), snd (lines_of last)).
Proof.
  induction first as [|c f IH]; simpl; intros H.
  - destruct (lines_of last); reflexivity.
  - rewrite IH by tauto.
    destruct (N.eqb_spec c NL) as [->|_]; [tauto | reflexivity].
Qed.

Lemma lines_of_rest (s : str) : ~ In NL (snd (lines_of s)).
Proof.
  induction s as [|c s IH]; simpl; [tauto|].
  destruct (lines_of s) as [ls r]. simpl in IH.
  destruct (N.eqb_spec c NL) as [->|Hc]; [exact IH|].
  destruct ls; simpl; [|exact IH].
  intros [H|H]; [congruence | tauto].
Qed.

(** A run of the loop that comes to its end has split off the complete
    lines of the buffer, in order, and has left what follows the last
    newline. *)
Lemma split_loop_lines (n : nat) :
  forall stdout ib s s1,
    (List.length (get_buf ib s) < n)%nat ->
    split_loop n stdout ib s = (Return tt, s1) ->
    yielded s1
    = yielded s ++ map (pair stdout) (fst (lines_of (get_buf ib s)))
    /\ get_buf ib s1 = snd (lines_of (get_buf ib s)).
Proof.
  induction n as [|n IH]; intros stdout ib s s1 Hn Hrun; [lia|].
  destruct (partition_nl_cases (get_buf ib s))
    as [[Hnone _]|(first & last & Hb & Hf & _)].
  - rewrite split_loop_done in Hrun by assumption.
    inversion Hrun; subst s1.
    rewrite (lines_of_none _ Hnone). simpl.
    rewrite app_nil_r. split; reflexivity.
  - rewrite (split_loop_round _ _ _ _ _ _ Hb Hf) in Hrun.
    destruct (line_cb stdout first _) as [[u|e] s'] eqn:Hcb;
      [|discriminate].
    pose proof (line_cb_keeps stdout first ib
                  (set_buf ib last
                     (set_yielded (yielded s ++ [(stdout, first)]) s)))
      as [Hbuf Hyl].
    rewrite Hcb in Hbuf, Hyl. simpl in Hbuf, Hyl.
    rewrite get_set_buf in Hbuf. rewrite yielded_set_buf in Hyl.
    simpl in Hyl.
    rewrite Hb, length_app in Hn. simpl in Hn.
    destruct (IH stdout ib s' s1) as [Hy1 Hb1];
      [rewrite Hbuf; lia | assumption |].
    rewrite Hb, (lines_of_found _ last Hf). simpl.
    rewrite Hy1, Hb1, Hyl, Hbuf, <- app_assoc. split; reflexivity.
Qed.

(** With the fuel [child_data_cb] gives it, the loop comes to its end or
    stops at an exception of a line handler: it never runs out of fuel. *)
Lemma split_loop_terminates (n : nat) :
  forall stdout ib s,
    (List.length (get_buf ib s) < n)%nat ->
    fst (split_loop n stdout ib s) <> Raise NotTerminated.
Proof.
  induction n as [|n IH]; intros stdout ib s Hn; [lia|].
  destruct (partition_nl_cases (get_buf ib s))
    as [[Hnone _]|(first & last & Hb & Hf & _)].
  - rewrite split_loop_done by assumption. discriminate.
  - rewrite (split_loop_round _ _ _ _ _ _ Hb Hf).
    pose proof (line_cb_terminates stdout first
                  (set_buf ib last
                     (set_yielded (yielded s ++ [(stdout, first)]) s)))
      as Hterm.
    pose proof (round_buffer stdout ib s first last
                  (yielded s ++ [(stdout, first)])) as Hbuf.
    destruct (line_cb stdout first _) as [[u|e] s'].
    + simpl in Hbuf. apply IH. rewrite Hbuf.
      rewrite Hb, length_app in Hn. simpl in Hn. lia.
    + simpl in *. assumption.
Qed.

(** The heart of chunk independence: text appended to the buffer after
    the loop has come to its end is treated as if it had been there from
    the start. *)
Lemma split_loop_app (n : nat) :
  forall stdout ib more s s1,
    (List.length (get_buf ib s) < n)%nat ->
    split_loop n stdout ib s = (Return tt, s1) ->
    run_loop stdout ib (set_buf ib (get_buf ib s ++ more) s)
    = run_loop stdout ib (set_buf ib (get_buf ib s1 ++ more) s1).
Proof.
  induction n as [|n IH]; intros stdout ib more s s1 Hn Hrun; [lia|].
  destruct (partition_nl_cases (get_buf ib s))
    as [[Hnone _]|(first & last & Hb & Hf & _)].
  - rewrite split_loop_done in Hrun by assumption.
    inversion Hrun; reflexivity.
  - rewrite (split_loop_round _ _ _ _ _ _ Hb Hf) in Hrun.
    set (t := set_yielded (yielded s ++ [(stdout, first)]) s) in *.
    rewrite line_cb_set_buf in Hrun.
    destruct (line_cb stdout first t) as [[u|e] t'] eqn:Hcb;
      simpl in Hrun; [|discriminate].
    assert (Hlast : get_buf ib (set_buf ib last t') = last)
      by apply get_set_buf.
    rewrite Hb, length_app in Hn. simpl in Hn.
    rewrite <- (IH stdout ib more (set_buf ib last t') s1);
      [|rewrite Hlast; lia | assumption].
    rewrite Hlast, set_set_buf.
    unfold run_loop at 1. rewrite get_set_buf.
    assert (Hb' : get_buf ib (set_buf ib (get_buf ib s ++ more) s)
                  = first ++ NL :: (last ++ more)).
    { rewrite get_set_buf, Hb, <- app_assoc. reflexivity. }
    rewrite (split_loop_round _ _ _ _ _ _ Hb' Hf).
    rewrite yielded_set_buf, <- set_buf_yielded, set_set_buf.
    rewrite set_buf_yielded. fold t.
    rewrite line_cb_set_buf, Hcb. simpl.
    apply split_loop_fuel; rewrite get_set_buf.
    + rewrite Hb, !length_app. simpl. lia.
    + lia.
Qed.

Lemma child_data_cb_run (stdout : bool) (ib : buffer_ref)
    (read : list byte) (text : str) (s : Self) :
  utf8_decode read = Some text ->
  child_data_cb (stdout, ib) read s
  = match run_loop stdout ib (set_buf ib (get_buf ib s ++ text) s) with
    | (Return _, s') => (Return true, s')
    | (Raise e, s') => (Raise e, s')
    end.
Proof.
  intros Hd. unfold child_data_cb, run_loop, bind, modify, gets, ret.
  rewrite Hd.
  destruct (split_loop _ stdout ib _) as [[u|e] s']; reflexivity.
Qed.

Lemma child_data_cb_returns (data : bool * buffer_ref) (read : list byte)
    (x : bool) (s s' : Self) :
  child_data_cb data read s = (Return x, s') ->
  exists text,
    utf8_decode read = Some text
    /\ run_loop (fst data) (snd data)
         (set_buf (snd data) (get_buf (snd data) s ++ text) s)
       = (Return tt, s')
    /\ x = true.
Proof.
  destruct data as [stdout ib]. intros H.
  destruct (utf8_decode read) as [text|] eqn:Hd.
  - rewrite (child_data_cb_run _ _ _ _ _ Hd) in H. exists text. simpl.
    destruct (run_loop _ _ _) as [[[]|e] s1]; inversion H; auto.
  - unfold child_data_cb in H. rewrite Hd in H. discriminate.
Qed.

(** Two reads handed over one after the other do what the two handed
    over as one read do. *)
Lemma child_data_cb_app (data : bool * buffer_ref) (a b : list byte)
    (x y : bool) (s s1 s2 : Self) :
  child_data_cb data a s = (Return x, s1) ->
  child_data_cb data b s1 = (Return y, s2) ->
  child_data_cb data (a ++ b) s = (Return true, s2).
Proof.
  intros Ha Hb.
  apply child_data_cb_returns in Ha as (ta & Hda & Hra & _).
  apply child_data_cb_returns in Hb as (tb & Hdb & Hrb & _).
  destruct data as [stdout ib]. simpl in Hra, Hrb.
  rewrite (child_data_cb_run _ _ _ _ _ (utf8_decode_app _ _ _ _ Hda Hdb)).
  pose proof (split_loop_app _ stdout ib tb _ s1 (Nat.lt_succ_diag_r _) Hra)
    as Happ.
  rewrite get_set_buf, set_set_buf, <- app_assoc in Happ.
  rewrite Happ, Hrb. reflexivity.
Qed.

(** X1.  [child_data_cb] always comes to an end: with the fuel the model
    gives it, the loop over the lines of the buffer never runs out. *)
Lemma child_data_cb_terminates (data : bool * buffer_ref)
    (read : list byte) (s : Self) :
  result (child_data_cb data read) s <> Raise NotTerminated.
Proof.
  destruct data as [stdout ib]. unfold result.
  destruct (utf8_decode read) as [text|] eqn:Hd.
  - rewrite (child_data_cb_run _ _ _ _ _ Hd).
    pose proof (split_loop_terminates _ stdout ib
                  (set_buf ib (get_buf ib s ++ text) s)
                  (Nat.lt_succ_diag_r _)) as Ht.
    unfold run_loop.
    destruct (split_loop _ stdout ib _) as [[u|e] s1]; simpl in *;
      [discriminate | congruence].
  - unfold child_data_cb. rewrite Hd. discriminate.
Qed.

Lemma feed_decodes (data : bool * buffer_ref) (reads : list (list byte)) :
  forall s s', feed data reads s = Some s' ->
    exists text, utf8_decode (List.concat reads) = Some text.
Proof.
  induction reads as [|r reads IH]; intros s s' H; simpl in *.
  - exists []; reflexivity.
  - destruct (child_data_cb data r s) as [[x|e] s1] eqn:Hr; [|discriminate].
    apply child_data_cb_returns in Hr as (ta & Hda & _).
    destruct (IH _ _ H) as (tb & Hdb). exists (ta ++ tb).
    apply utf8_decode_app; assumption.
Qed.

Lemma feed_whole (data : bool * buffer_ref) (reads : list (list byte)) :
  forall r s s',
    feed data (r :: reads) s = Some s' ->
    child_data_cb data (List.concat (r :: reads)) s = (Return true, s').
Proof.
  induction reads as [|r2 reads IH]; intros r s s' H.
  - simpl in *. rewrite app_nil_r.
    destruct (child_data_cb data r s) as [[x|e] s1] eqn:Hr; [|discriminate].
    inversion H; subst s1.
    destruct (child_data_cb_returns _ _ _ _ _ Hr) as (_ & _ & _ & ->).
    reflexivity.
  - change (feed data (r :: r2 :: reads) s)
      with (match child_data_cb data r s with
            | (Return _, s1) => feed data (r2 :: reads) s1
            | (Raise _, _) => None
            end) in H.
    destruct (child_data_cb data r s) as [[x|e] s1] eqn:Hr; [|discriminate].
    apply IH in H.
    change (List.concat (r :: r2 :: reads)) with (r ++ List.concat (r2 :: reads)).
    exact (child_data_cb_app _ _ _ _ _ _ _ _ Hr H).
Qed.

(** C1 (amended).  For every sequence of reads of one stream that
    [child_data_cb] takes one at a time without raising (each read is
    well-formed UTF-8 on its own, and no line split off makes the stdout
    decoder raise), handing the whole byte sequence over in a single call
    returns normally too and leaves the very same object: the same lines
    were split off, in the same order, namely the complete lines of the
    buffered text followed by the new text, and the buffer holds what
    follows the last newline, with no newline in it. *)
Theorem C1_chunked_feed_equals_whole (data : bool * buffer_ref)
    (r : list byte) (reads : list (list byte)) (s s' : Self) :
  feed data (r :: reads) s = Some s' ->
  child_data_cb data (List.concat (r :: reads)) s = (Return true, s')
  /\ exists text,
       utf8_decode (List.concat (r :: reads)) = Some text
       /\ yielded s'
          = yielded s
            ++ map (pair (fst data))
                 (fst (lines_of (get_buf (snd data) s ++ text)))
       /\ get_buf (snd data) s'
          = snd (lines_of (get_buf (snd data) s ++ text))
       /\ ~ In NL (get_buf (snd data) s').
Proof.
  intros Hfeed. pose proof (feed_whole _ _ _ _ _ Hfeed) as Hwhole.
  split; [assumption|].
  destruct (child_data_cb_returns _ _ _ _ _ Hwhole) as (text & Hd & Hrun & _).
  exists text. split; [assumption|].
  unfold run_loop in Hrun.
  apply split_loop_lines in Hrun; [|apply Nat.lt_succ_diag_r].
  rewrite get_set_buf, yielded_set_buf in Hrun.
  destruct Hrun as [Hy Hb]. split; [assumption|]. split; [assumption|].
  rewrite Hb. apply lines_of_rest.
Qed.


(* ================================================================== *)
(** * The suspend timer and the toggle *)
(* ================================================================== *)

Lemma without_all (id : N) (l : list timeout) :
  (forall t, In t l -> src_id t = id) -> without id l = [].
Proof.
  induction l as [|t l IH]; simpl; intros H; [reflexivity|].
  rewrite (H t) by (left; reflexivity). rewrite N.eqb_refl. simpl.
  apply IH. intros u Hu. apply H. right; assumption.
Qed.

Lemma without_incl (id : N) (l : list timeout) (t : timeout) :
  In t (without id l) -> In t l /\ src_id t <> id.
Proof.
  unfold without. rewrite filter_In, negb_true_iff, N.eqb_neq. tauto.
Qed.

Lemma has_source_false (id : N) (s : Self) :
  has_source id s = false -> without id (timeouts s) = timeouts s.
Proof.
  unfold has_source, without. induction (timeouts s) as [|t l IH]; simpl;
    [reflexivity|].
  destruct (src_id t =? id)%N; simpl; [discriminate|].
  intros H. rewrite IH by assumption. reflexivity.
Qed.

(** [remove_suspend_timer], field by field. *)
Lemma remove_suspend_timer_run (s : Self) :
  result remove_suspend_timer s = Return tt
  /\ suspend_timer (exec remove_suspend_timer s) = None
  /\ timeouts (exec remove_suspend_timer s)
     = match suspend_timer s with
       | Some id => without id (timeouts s)
       | None => timeouts s
       end
  /\ next_source_id (exec remove_suspend_timer s) = next_source_id s
  /\ clock (exec remove_suspend_timer s) = clock s
  /\ signals (exec remove_suspend_timer s) = signals s
  /\ worker_state (exec remove_suspend_timer s) = worker_state s
  /\ yielded (exec remove_suspend_timer s) = yielded s.
Proof.
  unfold worker_state. run_monad.
  destruct (suspend_timer s) as [id|] eqn:Ht; simpl.
  - destruct (has_source id s) eqn:Hs; simpl; repeat split; auto.
    symmetry; apply has_source_false; assumption.
  - repeat split; auto.
Qed.

Lemma toggle_cb_run (s : Self) :
  result toggle_cb s = Return tt
  /\ suspend_timer (exec toggle_cb s) = None
  /\ timeouts (exec toggle_cb s)
     = match suspend_timer s with
       | Some id => without id (timeouts s)
       | None => timeouts s
       end
  /\ next_source_id (exec toggle_cb s) = next_source_id s
  /\ clock (exec toggle_cb s) = clock s
  /\ signals (exec toggle_cb s) = signals s ++ [SIGUSR1]
  /\ worker_state (exec toggle_cb s) = worker_state s
  /\ yielded (exec toggle_cb s) = yielded s.
Proof.
  destruct (remove_suspend_timer_run s) as (Hr & H1 & H2 & H3 & H4 & H5 & H6 & H7).
  unfold toggle_cb, child_toggle_status, os_kill, bind, modify, exec, result
    in *.
  destruct (remove_suspend_timer s) as [[[]|e] s1]; simpl in *;
    [|discriminate].
  unfold worker_state in *. simpl. rewrite H5.
  repeat split; assumption.
Qed.

Lemma suspend_cb_run (minutes : Z) (s : Self) :
  result (suspend_cb minutes) s = Return tt
  /\ suspend_timer (exec (suspend_cb minutes) s) = Some (next_source_id s)
  /\ timeouts (exec (suspend_cb minutes) s)
     = match suspend_timer s with
       | Some id => without id (timeouts s)
       | None => timeouts s
       end
       ++ [mkTimeout (next_source_id s) (minutes * 60) (clock s) Reenable_cb]
  /\ next_source_id (exec (suspend_cb minutes) s) = (next_source_id s + 1)%N
  /\ clock (exec (suspend_cb minutes) s) = clock s
  /\ signals (exec (suspend_cb minutes) s)
     = (if _status s then signals s ++ [SIGUSR1] else signals s)
  /\ worker_state (exec (suspend_cb minutes) s) = worker_state s
  /\ yielded (exec (suspend_cb minutes) s) = yielded s.
Proof.
  unfold worker_state. run_monad.
  destruct (_status s) eqn:Hst; simpl;
    destruct (suspend_timer s) as [id|] eqn:Ht; simpl;
    try (destruct (has_source id _) eqn:Hs; simpl);
    repeat split; auto;
    try (rewrite Hst; reflexivity);
    try (unfold has_source in Hs; simpl in Hs;
         rewrite (has_source_false id s Hs); reflexivity).
Qed.

Lemma reenable_cb_run (s : Self) :
  reenable_cb s
  = (Return tt,
     if _status s then s else set_signals (signals s ++ [SIGUSR1]) s).
Proof. run_monad. destruct (_status s); reflexivity. Qed.

Lemma dispatch_timeout_run (t : timeout) (s : Self) :
  dispatch_timeout t s
  = set_timeouts (without (src_id t) (timeouts s))
      (if _status s then s else set_signals (signals s ++ [SIGUSR1]) s).
Proof.
  unfold dispatch_timeout, run_timeout_callback, exec.
  destruct t as [id iv ar []]. simpl. rewrite reenable_cb_run. simpl.
  destruct (_status s); reflexivity.
Qed.

Lemma toggle_item_cb_run (s : Self) :
  exec toggle_item_cb s
  = if Bool.eqb (_status s) (toggle_item_active s) then s
    else exec toggle_cb s.
Proof.
  unfold toggle_item_cb, toggle_cb, is_enabled, bind, gets, exec. simpl.
  destruct (Bool.eqb (_status s) (toggle_item_active s)); reflexivity.
Qed.


(** ** What the data callback leaves alone *)

Ltac split_decoded :=
  unfold decoded;
  repeat match goal with
         | |- context [if ?c then _ else _] => destruct c eqn:?
         | |- context [match ?c with Some _ => _ | None => _ end] =>
             destruct c eqn:?
         end.

Lemma decoded_sched (key value : str) (s : Self) :
  sched (snd (decoded key value s)) = sched s.
Proof. split_decoded; reflexivity. Qed.

Lemma decoded_status (key value : str) (s : Self) :
  _status (snd (decoded key value s)) <> _status s -> key = lit "Status".
Proof.
  unfold decoded. destruct (str_eqb key (lit "Status")) eqn:K.
  - intros _. apply str_eqb_eq; assumption.
  - intros H. exfalso. apply H. clear H. split_decoded; reflexivity.
Qed.

Lemma line_cb_sched (stdout : bool) (first : str) (s : Self) :
  sched (snd (line_cb stdout first s)) = sched s.
Proof.
  unfold line_cb. destruct stdout; [|reflexivity].
  rewrite child_stdout_line_cb_decoded.
  destruct (re_match first) as [[key value]|];
    [apply decoded_sched | reflexivity].
Qed.

Lemma line_cb_status (stdout : bool) (first : str) (s : Self) :
  _status (snd (line_cb stdout first s)) <> _status s ->
  stdout = true /\ exists value, re_match first = Some (lit "Status", value).
Proof.
  unfold line_cb. destruct stdout; [|simpl; tauto].
  rewrite child_stdout_line_cb_decoded.
  destruct (re_match first) as [[key value]|]; [|simpl; tauto].
  intros H. apply decoded_status in H. subst key. eauto.
Qed.

Lemma sched_set_buf_yielded (ib : buffer_ref) (v : str)
    (y : list (bool * str)) (s : Self) :
  sched (set_buf ib v (set_yielded y s)) = sched s.
Proof. destruct ib; reflexivity. Qed.

Lemma status_set_buf_yielded (ib : buffer_ref) (v : str)
    (y : list (bool * str)) (s : Self) :
  _status (set_buf ib v (set_yielded y s)) = _status s.
Proof. destruct ib; reflexivity. Qed.

Lemma split_loop_sched (n : nat) :
  forall stdout ib s, sched (snd (split_loop n stdout ib s)) = sched s.
Proof.
  induction n as [|n IH]; intros stdout ib s; [reflexivity|].
  destruct (partition_nl_cases (get_buf ib s))
    as [[Hnone _]|(first & last & Hb & Hf & _)].
  - rewrite split_loop_done by assumption. reflexivity.
  - rewrite (split_loop_round _ _ _ _ _ _ Hb Hf).
    pose proof (line_cb_sched stdout first
                  (set_buf ib last
                     (set_yielded (yielded s ++ [(stdout, first)]) s)))
      as Hcb.
    rewrite sched_set_buf_yielded in Hcb.
    destruct (line_cb stdout first _) as [[u|e] s']; simpl in Hcb.
    + rewrite IH. assumption.
    + assumption.
Qed.

(** The enabled flag changes in the loop only when one of the lines split
    off is a stdout line with key "Status". *)
Lemma split_loop_status (n : nat) :
  forall stdout ib s,
    exists new,
      yielded (snd (split_loop n stdout ib s)) = yielded s ++ new
      /\ (_status (snd (split_loop n stdout ib s)) <> _status s ->
          stdout = true
          /\ exists line value,
               In (true, line) new
               /\ re_match line = Some (lit "Status", value)).
Proof.
  induction n as [|n IH]; intros stdout ib s.
  { exists []. simpl. rewrite app_nil_r. split; [reflexivity | tauto]. }
  destruct (partition_nl_cases (get_buf ib s))
    as [[Hnone _]|(first & last & Hb & Hf & _)].
  { rewrite split_loop_done by assumption.
    exists []. simpl. rewrite app_nil_r. split; [reflexivity | tauto]. }
  rewrite (split_loop_round _ _ _ _ _ _ Hb Hf).
  set (s0 := set_buf ib last
               (set_yielded (yielded s ++ [(stdout, first)]) s)).
  pose proof (line_cb_status stdout first s0) as Hst.
  pose proof (proj2 (line_cb_keeps stdout first ib s0)) as Hyl.
  unfold s0 in Hst at 2. rewrite status_set_buf_yielded in Hst.
  unfold s0 in Hyl at 2. rewrite yielded_set_buf in Hyl. simpl in Hyl.
  destruct (line_cb stdout first s0) as [[u|e] s'] eqn:Hcb;
    simpl in Hst, Hyl.
  - destruct (IH stdout ib s') as (new & Hy & Hs).
    exists ((stdout, first) :: new). split.
    + rewrite Hy, Hyl, <- app_assoc. reflexivity.
    + intros Hne.
      destruct (Bool.bool_dec (_status s') (_status s)) as [Heq|Hd].
      * rewrite <- Heq in Hne. destruct (Hs Hne) as (-> & l & v & Hin & Hm).
        split; [reflexivity|]. exists l, v. split; [right|]; assumption.
      * destruct (Hst Hd) as (-> & v & Hm).
        split; [reflexivity|]. exists first, v.
        split; [left; reflexivity | assumption].
  - exists [(stdout, first)]. split; [assumption|].
    simpl. intros Hne. destruct (Hst Hne) as (-> & v & Hm).
    split; [reflexivity|]. exists first, v.
    split; [left; reflexivity | assumption].
Qed.

Lemma child_data_cb_sched (data : bool * buffer_ref) (read : list byte)
    (s : Self) :
  sched (exec (child_data_cb data read) s) = sched s.
Proof.
  destruct data as [stdout ib]. unfold exec.
  destruct (utf8_decode read) as [text|] eqn:Hd.
  - rewrite (child_data_cb_run _ _ _ _ _ Hd). unfold run_loop.
    pose proof (split_loop_sched
                  (S (List.length
                        (get_buf ib (set_buf ib (get_buf ib s ++ text) s))))
                  stdout ib (set_buf ib (get_buf ib s ++ text) s)) as H.
    destruct (split_loop _ stdout ib _) as [[u|e] s1]; simpl in *;
      rewrite H; destruct ib; reflexivity.
  - unfold child_data_cb. rewrite Hd. reflexivity.
Qed.

Lemma child_data_cb_status (data : bool * buffer_ref) (read : list byte)
    (s : Self) :
  exists new,
    yielded (exec (child_data_cb data read) s) = yielded s ++ new
    /\ (_status (exec (child_data_cb data read) s) <> _status s ->
        fst data = true
        /\ exists line value,
             In (true, line) new
             /\ re_match line = Some (lit "Status", value)).
Proof.
  destruct data as [stdout ib]. unfold exec.
  destruct (utf8_decode read) as [text|] eqn:Hd.
  - rewrite (child_data_cb_run _ _ _ _ _ Hd). unfold run_loop.
    destruct (split_loop_status
                (S (List.length
                      (get_buf ib (set_buf ib (get_buf ib s ++ text) s))))
                stdout ib (set_buf ib (get_buf ib s ++ text) s))
      as (new & Hy & Hs).
    exists new.
    destruct (split_loop _ stdout ib _) as [[u|e] s1]; simpl in *;
      (split; [rewrite Hy; destruct ib; reflexivity|]);
      intros Hne; apply Hs; destruct ib; exact Hne.
  - unfold child_data_cb. rewrite Hd. exists []. simpl.
    rewrite app_nil_r. split; [reflexivity | tauto].
Qed.

(** ** The main loop and the timers *)

Lemma sched_fields (s s' : Self) :
  sched s' = sched s ->
  suspend_timer s' = suspend_timer s /\ timeouts s' = timeouts s
  /\ next_source_id s' = next_source_id s /\ clock s' = clock s
  /\ signals s' = signals s.
Proof. unfold sched. intros H. inversion H. auto. Qed.

(** A step adds at most the source it has just created, and ids only
    grow. *)
Lemma step_timeouts (s s' : Self) (e : event) :
  step s e s' ->
  (next_source_id s <= next_source_id s')%N
  /\ forall t, In t (timeouts s') ->
       In t (timeouts s) \/ src_id t = next_source_id s.
Proof.
  assert (Hrm : forall o l t,
             In t (match o with Some id => without id l | None => l end) ->
             In t l).
  { intros [id|] l t H; [apply without_incl in H; tauto | assumption]. }
  intros Hstep. destruct Hstep.
  - destruct (toggle_cb_run s) as (_ & _ & Ht & Hn & _).
    rewrite Ht, Hn. split; [lia|]. intros t H. left. eapply Hrm; eassumption.
  - rewrite toggle_item_cb_run.
    destruct (Bool.eqb _ _).
    + simpl. split; [lia | auto].
    + destruct (toggle_cb_run
                  (set_toggle_item_active (negb (toggle_item_active s)) s))
        as (_ & _ & Ht & Hn & _).
      rewrite Ht, Hn. simpl. split; [lia|]. intros t H. left.
      eapply Hrm; eassumption.
  - destruct (suspend_cb_run minutes s) as (_ & _ & Ht & Hn & _).
    rewrite Ht, Hn. split; [lia|]. intros t H0.
    apply in_app_or in H0 as [H0|[<-|[]]]; [left | right; reflexivity].
    eapply Hrm; eassumption.
  - rewrite dispatch_timeout_run. destruct (_status s); simpl;
      (split; [lia|]); intros u Hu; left;
      apply without_incl in Hu; tauto.
  - destruct (sched_fields _ _ (child_data_cb_sched data read s))
      as (_ & Ht & Hn & _).
    rewrite Ht, Hn. split; [lia | auto].
  - simpl. split; [lia | auto].
  - simpl. split; [lia | auto].
Qed.

Lemma step_timer_inv (s s' : Self) (e : event) :
  step s e s' -> timer_inv s -> timer_inv s'.
Proof.
  assert (Hrm : forall s0, timer_inv s0 ->
             match suspend_timer s0 with
             | Some id => without id (timeouts s0)
             | None => timeouts s0
             end = []).
  { intros s0 (Hin & Hlen & _).
    destruct (suspend_timer s0) as [id|] eqn:Hs.
    - apply without_all. intros t Ht. apply Hin in Ht. congruence.
    - destruct (timeouts s0) as [|t l]; [reflexivity|].
      specialize (Hin t (or_introl eq_refl)). discriminate. }
  assert (Hkeep : forall s0 s1,
             suspend_timer s1 = suspend_timer s0 ->
             timeouts s1 = timeouts s0 ->
             next_source_id s1 = next_source_id s0 ->
             timer_inv s0 -> timer_inv s1).
  { intros s0 s1 H1 H2 H3 Hinv.
    unfold timer_inv. rewrite H1, H2, H3. assumption. }
  assert (Htoggle : forall s0, timer_inv s0 -> timer_inv (exec toggle_cb s0)).
  { intros s0 Hinv.
    destruct (toggle_cb_run s0) as (_ & H1 & H2 & H3 & _).
    unfold timer_inv. rewrite H1, H2, H3, (Hrm s0 Hinv). simpl.
    repeat split; [tauto | lia | discriminate]. }
  intros Hstep Hinv. destruct Hstep.
  - apply Htoggle; assumption.
  - rewrite toggle_item_cb_run.
    destruct (Bool.eqb _ _); [|apply Htoggle];
      apply (Hkeep s); solve [assumption | reflexivity].
  - destruct (suspend_cb_run minutes s) as (_ & H1 & H2 & H3 & _).
    unfold timer_inv. rewrite H1, H2, H3, (Hrm s Hinv). simpl.
    repeat split.
    + intros t [<-|[]]. reflexivity.
    + lia.
    + intros id Hid. inversion Hid. lia.
  - rewrite dispatch_timeout_run.
    destruct Hinv as (Hin & Hlen & Hid).
    assert (Hw : without (src_id t) (timeouts s) = []).
    { apply without_all. intros u Hu.
      apply Hin in Hu. rewrite (Hin t H) in Hu. congruence. }
    unfold timer_inv. rewrite Hw.
    destruct (_status s); simpl;
      (repeat split; [tauto | lia | assumption]).
  - destruct (sched_fields _ _ (child_data_cb_sched data read s))
      as (H1 & H2 & H3 & _).
    apply (Hkeep s); assumption.
  - apply (Hkeep s); solve [assumption | reflexivity].
  - apply (Hkeep s); solve [assumption | reflexivity].
Qed.

Lemma steps_timer_inv (s s' : Self) (es : list event) :
  steps s es s' -> timer_inv s -> timer_inv s'.
Proof.
  induction 1 as [|s e s1 es s2 Hstep _ IH]; [auto|].
  intros Hinv. apply IH. eapply step_timer_inv; eassumption.
Qed.

Lemma init_timer_inv : timer_inv init.
Proof.
  unfold timer_inv. simpl. repeat split; [tauto | lia | discriminate].
Qed.

Lemma reachable_timer_inv (s : Self) : reachable s -> timer_inv s.
Proof.
  intros [es H]. exact (steps_timer_inv _ _ _ H init_timer_inv).
Qed.

Lemma steps_app (s s1 s2 : Self) (es es' : list event) :
  steps s es s1 -> steps s1 es' s2 -> steps s (es ++ es') s2.
Proof.
  induction 1 as [|s e s' es s'' Hstep _ IH]; simpl; [auto|].
  intros H. econstructor; [eassumption | auto].
Qed.

(** A source id that was handed out and is not attached never comes
    back: no later run dispatches it. *)
Lemma steps_keep_out (id : N) (s s' : Self) (es : list event) :
  steps s es s' ->
  (id < next_source_id s)%N ->
  ~ In id (map src_id (timeouts s)) ->
  (id < next_source_id s')%N
  /\ ~ In id (map src_id (timeouts s'))
  /\ ~ In (Timeout_expired id) es.
Proof.
  induction 1 as [|s e s1 es s2 Hstep _ IH]; intros Hlt Hout.
  { simpl. tauto. }
  destruct (step_timeouts _ _ _ Hstep) as [Hn Hsub].
  assert (Hout1 : ~ In id (map src_id (timeouts s1))).
  { intros Hin. apply in_map_iff in Hin as (t & Hid & Ht).
    destruct (Hsub t Ht) as [Hold|Hnew].
    - apply Hout. apply in_map_iff. eauto.
    - lia. }
  destruct IH as (H1 & H2 & H3); [lia | assumption |].
  split; [assumption|]. split; [assumption|].
  intros [He|He]; [|tauto].
  subst e. inversion Hstep; subst. apply Hout.
  apply in_map. assumption.
Qed.


Lemma timer_inv_removed (s : Self) :
  timer_inv s ->
  match suspend_timer s with
  | Some id => without id (timeouts s)
  | None => timeouts s
  end = [].
Proof.
  intros (Hin & _ & _).
  destruct (suspend_timer s) as [id|] eqn:Hs.
  - apply without_all. intros t Ht. apply Hin in Ht. congruence.
  - destruct (timeouts s) as [|t l]; [reflexivity|].
    specialize (Hin t (or_introl eq_refl)). discriminate.
Qed.

(** On an object that satisfies the invariant, a suspend request leaves
    its own timer and no other, and what was pending is never
    dispatched. *)
Lemma suspend_cb_replaces (minutes : Z) (s : Self) :
  timer_inv s ->
  timeouts (exec (suspend_cb minutes) s)
  = [mkTimeout (next_source_id s) (minutes * 60) (clock s) Reenable_cb]
  /\ suspend_timer (exec (suspend_cb minutes) s) = Some (next_source_id s)
  /\ forall old es s',
       In old (timeouts s) ->
       steps (exec (suspend_cb minutes) s) es s' ->
       ~ In (src_id old) (map src_id (timeouts s'))
       /\ ~ In (Timeout_expired (src_id old)) es.
Proof.
  intros Hinv.
  destruct (suspend_cb_run minutes s) as (_ & H1 & H2 & H3 & _).
  rewrite (timer_inv_removed s Hinv) in H2. simpl in H2.
  split; [assumption|]. split; [assumption|].
  intros old es s' Hold Hsteps.
  destruct Hinv as (Hin & _ & Hid).
  pose proof (Hid _ (Hin old Hold)) as Hlt.
  destruct (steps_keep_out (src_id old) _ _ _ Hsteps) as (_ & Ha & Hb).
  - rewrite H3. lia.
  - rewrite H2. simpl. intros [Heq|[]]. lia.
  - tauto.
Qed.

(** C5.  At most one re-enable timer is ever pending, whatever the main
    loop has dispatched.  A suspend request leaves exactly one pending
    timer, its own, due [minutes * 60] seconds after the request; a timer
    that was pending is cancelled and is never dispatched afterwards.  In
    particular, a request for 30 minutes followed, before its timer has
    fired, by a request for 60 minutes leaves exactly one pending timer,
    due 60 * 60 seconds after the second request, and the first timer
    never fires. *)
Theorem C5_single_pending_timer (s : Self) :
  reachable s ->
  (List.length (timeouts s) <= 1)%nat
  /\ (forall minutes,
        timeouts (exec (suspend_cb minutes) s)
        = [mkTimeout (next_source_id s) (minutes * 60) (clock s) Reenable_cb]
        /\ suspend_timer (exec (suspend_cb minutes) s)
           = Some (next_source_id s)
        /\ forall old es s',
             In old (timeouts s) ->
             steps (exec (suspend_cb minutes) s) es s' ->
             ~ In (src_id old) (map src_id (timeouts s'))
             /\ ~ In (Timeout_expired (src_id old)) es)
  /\ (forall es s1,
        steps (exec (suspend_cb 30) s) es s1 ->
        In (mkTimeout (next_source_id s) (30 * 60) (clock s) Reenable_cb)
           (timeouts s1) ->
        exists t,
          timeouts (exec (suspend_cb 60) s1) = [t]
          /\ deadline t = clock s1 + 60 * 60
          /\ forall es' s2,
               steps (exec (suspend_cb 60) s1) es' s2 ->
               ~ In (Timeout_expired (next_source_id s)) es').
Proof.
  intros Hreach. pose proof (reachable_timer_inv s Hreach) as Hinv.
  split; [apply Hinv|].
  split; [intros minutes; apply suspend_cb_replaces; assumption|].
  intros es s1 Hsteps Hpending.
  assert (Hinv30 : timer_inv (exec (suspend_cb 30) s)).
  { apply (step_timer_inv s _ (Suspend_item_activate 30));
      [constructor; simpl; tauto | assumption]. }
  pose proof (steps_timer_inv _ _ _ Hsteps Hinv30) as Hinv1.
  destruct (suspend_cb_replaces 60 s1 Hinv1) as (Ht & _ & Hnever).
  eexists. split; [exact Ht|]. split; [reflexivity|].
  intros es' s2 Hsteps'.
  exact (proj2 (Hnever _ es' s2 Hpending Hsteps')).
Qed.

(** C6.  A suspend request made while the worker is disabled sends no
    signal and still arms a timer of [minutes * 60] seconds.  When a
    timer fires, the signal is sent if the worker is disabled; if the
    worker is enabled nothing is sent and nothing changes, but that the
    source that fired is gone. *)
Theorem C6_suspend_while_disabled_and_reenable_check (s : Self)
    (minutes : Z) (t : timeout) :
  (_status s = false ->
   result (suspend_cb minutes) s = Return tt
   /\ signals (exec (suspend_cb minutes) s) = signals s
   /\ In (mkTimeout (next_source_id s) (minutes * 60) (clock s) Reenable_cb)
         (timeouts (exec (suspend_cb minutes) s))
   /\ suspend_timer (exec (suspend_cb minutes) s) = Some (next_source_id s))
  /\ (_status s = false ->
      reenable_cb s = (Return tt, set_signals (signals s ++ [SIGUSR1]) s)
      /\ signals (dispatch_timeout t s) = signals s ++ [SIGUSR1])
  /\ (_status s = true ->
      reenable_cb s = (Return tt, s)
      /\ dispatch_timeout t s
         = set_timeouts (without (src_id t) (timeouts s)) s).
Proof.
  split; [|split]; intros Hst.
  - destruct (suspend_cb_run minutes s) as (Hr & H1 & H2 & _ & _ & H5 & _).
    rewrite Hst in H5. rewrite H2.
    repeat split; try assumption.
    apply in_or_app; right; left; reflexivity.
  - rewrite dispatch_timeout_run, reenable_cb_run, Hst. split; reflexivity.
  - rewrite dispatch_timeout_run, reenable_cb_run, Hst. split; reflexivity.
Qed.

(** C7 (the code departs from the claim).  When the suspend timer fires,
    GLib destroys the source, but [reenable_cb] leaves
    [self.suspend_timer] as it is: the object still names the timer that
    fired, where [remove_suspend_timer] stores [None].  After a request
    for 30 minutes on the initial object and the firing of its timer, no
    source is pending and [self.suspend_timer] is still the id 4; the
    next [toggle_cb] then asks GLib to remove a source that does not
    exist. *)
Theorem C7_fired_timer_reference_not_cleared :
  (forall s t, suspend_timer (dispatch_timeout t s) = suspend_timer s)
  /\ (forall s, suspend_timer (exec remove_suspend_timer s) = None)
  /\ timeouts (exec (suspend_cb 30) init)
     = [mkTimeout 4 1800 0 Reenable_cb]
  /\ timeouts
       (dispatch_timeout (mkTimeout 4 1800 0 Reenable_cb)
          (set_clock 1800 (exec (suspend_cb 30) init))) = []
  /\ suspend_timer
       (dispatch_timeout (mkTimeout 4 1800 0 Reenable_cb)
          (set_clock 1800 (exec (suspend_cb 30) init))) = Some 4%N
  /\ sources_not_found
       (exec toggle_cb
          (dispatch_timeout (mkTimeout 4 1800 0 Reenable_cb)
             (set_clock 1800 (exec (suspend_cb 30) init)))) = [4%N].
Proof.
  split.
  { intros s t. rewrite dispatch_timeout_run.
    destruct (_status s); reflexivity. }
  split.
  { intros s. apply (remove_suspend_timer_run s). }
  repeat split; reflexivity.
Qed.

Lemma worker_state_status (s s' : Self) :
  worker_state s' = worker_state s -> _status s' = _status s.
Proof. unfold worker_state. intros H. inversion H. reflexivity. Qed.

(** Among the events of the main loop, only data on the child's stdout
    whose lines include a "Status" line changes the enabled flag. *)
Lemma step_status (s s' : Self) (e : event) :
  step s e s' ->
  _status s' <> _status s ->
  exists read new line value,
    e = Child_data stdout_watch read
    /\ yielded s' = yielded s ++ new
    /\ In (true, line) new
    /\ re_match line = Some (lit "Status", value).
Proof.
  intros Hstep Hne. destruct Hstep.
  - exfalso. apply Hne. apply worker_state_status, toggle_cb_run.
  - exfalso. apply Hne. rewrite toggle_item_cb_run.
    destruct (Bool.eqb _ _); [reflexivity|].
    exact (worker_state_status _ _
             (proj1 (proj2 (proj2 (proj2 (proj2 (proj2 (proj2
                (toggle_cb_run _))))))))).
  - exfalso. apply Hne.
    exact (worker_state_status _ _
             (proj1 (proj2 (proj2 (proj2 (proj2 (proj2 (proj2
                (suspend_cb_run minutes s))))))))).
  - exfalso. apply Hne. rewrite dispatch_timeout_run.
    destruct (_status s) eqn:Hst; simpl; exact Hst.
  - destruct (child_data_cb_status data read s) as (new & Hy & Hs).
    destruct (Hs Hne) as (Hout & line & value & Hin & Hm).
    exists read, new, line, value.
    repeat split; try assumption.
    destruct H as [<-|[<-|[]]]; [reflexivity | discriminate].
  - exfalso. apply Hne. reflexivity.
  - exfalso. apply Hne. reflexivity.
Qed.

(** C8.  [toggle_cb] cancels the suspend timer and sends the signal, and
    does not touch the mirrored worker state: called twice in a row it
    sends the signal twice, and the enabled flag, the temperature, the
    period and the location are what they were.  Among all the events the
    main loop dispatches, the enabled flag changes only on data from the
    child's stdout in which a "Status" line is decoded. *)
Theorem C8_toggle_is_a_request (s : Self) :
  (result toggle_cb s = Return tt
   /\ signals (exec toggle_cb s) = signals s ++ [SIGUSR1]
   /\ suspend_timer (exec toggle_cb s) = None
   /\ (forall id, suspend_timer s = Some id ->
         ~ In id (map src_id (timeouts (exec toggle_cb s))))
   /\ (reachable s -> timeouts (exec toggle_cb s) = [])
   /\ worker_state (exec toggle_cb s) = worker_state s)
  /\ (signals (exec toggle_cb (exec toggle_cb s))
      = signals s ++ [SIGUSR1; SIGUSR1]
      /\ worker_state (exec toggle_cb (exec toggle_cb s)) = worker_state s)
  /\ (forall e s',
        step s e s' ->
        _status s' <> _status s ->
        exists read new line value,
          e = Child_data stdout_watch read
          /\ yielded s' = yielded s ++ new
          /\ In (true, line) new
          /\ re_match line = Some (lit "Status", value)).
Proof.
  destruct (toggle_cb_run s) as (Hr & H1 & H2 & _ & _ & H5 & H6 & _).
  destruct (toggle_cb_run (exec toggle_cb s)) as (_ & _ & _ & _ & _ & H5' & H6' & _).
  split; [|split].
  - repeat split; try assumption.
    + intros id Hid Hin. rewrite H2, Hid in Hin.
      apply in_map_iff in Hin as (t & Ht & Hin).
      apply without_incl in Hin. tauto.
    + intros Hreach. rewrite H2.
      apply timer_inv_removed, reachable_timer_inv; assumption.
  - rewrite H5', H5, H6', H6, <- app_assoc. split; reflexivity.
  - intros e s'. apply step_status.
Qed.

(* ================================================================== *)
(** * The exit of the child *)
(* ================================================================== *)

(** On the stderr stream the loop comes to its end and moves text from
    the buffer to the error log without changing it. *)
Lemma split_loop_stderr (n : nat) :
  forall s,
    (List.length (error_buffer s) < n)%nat ->
    fst (split_loop n false Error_buffer s) = Return tt
    /\ errors (snd (split_loop n false Error_buffer s))
       ++ error_buffer (snd (split_loop n false Error_buffer s))
       = errors s ++ error_buffer s.
Proof.
  induction n as [|n IH]; intros s Hn; [lia|].
  destruct (partition_nl_cases (get_buf Error_buffer s))
    as [[Hnone _]|(first & last & Hb & Hf & _)].
  - rewrite split_loop_done by assumption. split; reflexivity.
  - rewrite (split_loop_round _ _ _ _ _ _ Hb Hf). simpl in Hb.
    unfold line_cb, modify. simpl.
    rewrite Hb, length_app in Hn. simpl in Hn.
    match goal with
    | |- context [split_loop n false Error_buffer ?s0] =>
        destruct (IH s0) as [Hr He]; [simpl; lia|]
    end.
    split; [assumption|].
    rewrite He, Hb. simpl. rewrite <- !app_assoc. reflexivity.
Qed.

(** X2.  On the stderr stream nothing is lost while the child runs: a
    read that is well-formed UTF-8 makes [child_data_cb] return [True],
    and the error log followed by the buffer is what they were before,
    followed by the text read. *)
Lemma stderr_text_kept (read : list byte) (text : str) (s : Self) :
  utf8_decode read = Some text ->
  result (child_data_cb stderr_watch read) s = Return true
  /\ errors (exec (child_data_cb stderr_watch read) s)
     ++ error_buffer (exec (child_data_cb stderr_watch read) s)
     = errors s ++ error_buffer s ++ text.
Proof.
  intros Hd. unfold result, exec, stderr_watch.
  rewrite (child_data_cb_run _ _ _ _ _ Hd). unfold run_loop.
  destruct (split_loop_stderr
              (S (List.length
                    (get_buf Error_buffer
                       (set_buf Error_buffer
                          (get_buf Error_buffer s ++ text) s))))
              (set_buf Error_buffer (get_buf Error_buffer s ++ text) s))
    as [Hr He]; [simpl; lia|].
  destruct (split_loop _ false Error_buffer _) as [[u|e] s1];
    simpl in *; [|discriminate].
  split; [reflexivity | assumption].
Qed.

(** With nothing left in the pipes, the exit status alone decides: a
    clean exit quits the main loop and shows nothing, any other status
    runs the error dialog on [self.errors] and exits with status 255. *)
Lemma child_cb_classifies (status : Z) (s : Self) :
  main_quit s = false ->
  (WIFEXITED status && (WEXITSTATUS status =? 0) = true ->
   child_cb status [] [] s = (Return tt, set_main_quit true s)
   /\ supervisor_exit (child_cb status [] [] s) = Some 0)
  /\ (WIFEXITED status && (WEXITSTATUS status =? 0) = false ->
      child_cb status [] [] s
      = (Raise (SystemExit (-1)),
         set_error_dialog (Some (error_markup (errors s))) s)
      /\ supervisor_exit (child_cb status [] [] s) = Some 255).
Proof.
  intros Hq. unfold child_cb, glib_spawn_check_exit_status, try_except,
    gtk_main_quit, sys_exit, bind, ret, raise, gets, modify. simpl.
  split; intros Hst; rewrite Hst; simpl; split; reflexivity.
Qed.

(** C9 (the code departs from the claim).  The child writes
    "fatal error\n" to stderr and exits with code 1 (wait status 256).
    If the whole line reaches the program in one piece, through
    [child_data_cb] or in [child_cb] itself, the dialog shows exactly
    that text.  If "fatal " is read by [child_data_cb] and "error\n" is
    still in the pipe when the child exits, [child_cb] shows "error\n":
    the beginning of the line stays in [self.error_buffer] and is lost.
    In every case the program exits with status 255; with wait status 0
    it quits the main loop and shows nothing. *)
Theorem C9_failure_report_loses_buffered_text :
  (let r := child_cb 256 [] [list_byte_of_string "error" ++ [x0a]]
              (exec (child_data_cb stderr_watch
                       (list_byte_of_string "fatal ")) init) in
   fst r = Raise (SystemExit (-1))
   /\ supervisor_exit r = Some 255
   /\ error_dialog (snd r) = Some (error_markup (lit "error" ++ [NL]))
   /\ errors (snd r) = lit "error" ++ [NL]
   /\ error_buffer (snd r) = lit "fatal "
   /\ errors (snd r) <> lit "fatal error" ++ [NL])
  /\ (let r := child_cb 256 [] []
                 (exec (child_data_cb stderr_watch
                          (list_byte_of_string "fatal error" ++ [x0a]))
                    init) in
      fst r = Raise (SystemExit (-1))
      /\ supervisor_exit r = Some 255
      /\ error_dialog (snd r)
         = Some (error_markup (lit "fatal error" ++ [NL])))
  /\ (let r := child_cb 256 []
                 [list_byte_of_string "fatal error" ++ [x0a]] init in
      fst r = Raise (SystemExit (-1))
      /\ supervisor_exit r = Some 255
      /\ error_dialog (snd r)
         = Some (error_markup (lit "fatal error" ++ [NL])))
  /\ (let r := child_cb 0 [] [] init in
      fst r = Return tt
      /\ supervisor_exit r = Some 0
      /\ main_quit (snd r) = true
      /\ error_dialog (snd r) = None).
Proof.
  repeat split; try reflexivity. discriminate.
Qed.

(* ================================================================== *)
(** * Starting the child *)
(* ================================================================== *)

Lemma str_eqb_sym (a b : str) : str_eqb a b = str_eqb b a.
Proof.
  destruct (str_eqb a b) eqn:H1, (str_eqb b a) eqn:H2; try reflexivity.
  - apply str_eqb_eq in H1. apply str_eqb_neq in H2. congruence.
  - apply str_eqb_neq in H1. apply str_eqb_eq in H2. congruence.
Qed.

Lemma os_path_join_redshift_length (a : str) :
  (8 <= List.length (os_path_join a (lit "redshift")))%nat.
Proof.
  unfold os_path_join. simpl.
  destruct a as [|c a]; [simpl; lia|].
  destruct (ends_with_slash (c :: a)); rewrite !length_app; simpl; lia.
Qed.

(** X4.  The child is started with the program [redshift] of
    [defs.BINDIR] as its first argument, followed by ['-v'] exactly when
    the user gave no ['-v'], followed by the user's arguments, all of
    them and in their order.  The path put in front is never taken for
    the flag, whatever the directory. *)
Theorem child_args_spec (bindir : str) (args : list str) :
  os_path_join bindir (lit "redshift") <> lit "-v"
  /\ child_args bindir args
     = os_path_join bindir (lit "redshift")
       :: (if str_in (lit "-v") args then args else lit "-v" :: args)
  /\ str_in (lit "-v") (child_args bindir args) = true.
Proof.
  assert (Hp : os_path_join bindir (lit "redshift") <> lit "-v").
  { intros H. pose proof (os_path_join_redshift_length bindir) as Hl.
    rewrite H in Hl. simpl in Hl. lia. }
  assert (Hb : str_eqb (lit "-v") (os_path_join bindir (lit "redshift"))
               = false).
  { apply str_eqb_neq. congruence. }
  split; [assumption|].
  unfold child_args, list_insert, str_in.
  set (path := os_path_join bindir (lit "redshift")) in *.
  cbn [firstn skipn app existsb]. rewrite Hb. cbn [orb].
  destruct (existsb (str_eqb (lit "-v")) args) eqn:Hv;
    cbn [negb firstn skipn app existsb].
  - rewrite Hb, Hv. split; reflexivity.
  - rewrite Hb, str_eqb_refl. split; reflexivity.
Qed.

Lemma dict_get_set (k v q : str) (d : list (str * str)) :
  dict_get q (dict_set k v d)
  = if str_eqb k q then Some v else dict_get q d.
Proof.
  induction d as [|[k0 v0] d IH]; simpl.
  - reflexivity.
  - destruct (str_eqb k0 k) eqn:H0; simpl.
    + apply str_eqb_eq in H0. subst k0.
      destruct (str_eqb k q); reflexivity.
    + rewrite IH. destruct (str_eqb k0 q) eqn:H1; [|reflexivity].
      apply str_eqb_eq in H1. subst k0. rewrite str_eqb_sym, H0.
      reflexivity.
Qed.

Lemma dict_set_keys (k v : str) (d : list (str * str)) :
  map fst (dict_set k v d)
  = if str_in k (map fst d) then map fst d else map fst d ++ [k].
Proof.
  unfold str_in. induction d as [|[k0 v0] d IH]; simpl; [reflexivity|].
  rewrite (str_eqb_sym k k0).
  destruct (str_eqb k0 k); simpl; [reflexivity|].
  rewrite IH. destruct (existsb (str_eqb k) (map fst d)); reflexivity.
Qed.

Lemma str_in_In (x : str) (l : list str) : str_in x l = true <-> In x l.
Proof.
  unfold str_in. rewrite existsb_exists. split.
  - intros (y & Hy & He). apply str_eqb_eq in He. subst. assumption.
  - intros H. exists x. split; [assumption | apply str_eqb_refl].
Qed.

Lemma dict_set_NoDup (k v : str) (d : list (str * str)) :
  NoDup (map fst d) -> NoDup (map fst (dict_set k v d)).
Proof.
  intros H. rewrite dict_set_keys.
  destruct (str_in k (map fst d)) eqn:Hk; [assumption|].
  apply NoDup_app; [assumption | repeat constructor; simpl; tauto |].
  intros x Hx [<-|[]]. apply str_in_In in Hx. congruence.
Qed.

Lemma dict_get_In (k v : str) (d : list (str * str)) :
  NoDup (map fst d) -> (In (k, v) d <-> dict_get k d = Some v).
Proof.
  induction d as [|[k0 v0] d IH]; simpl; intros Hnd.
  - split; [tauto | discriminate].
  - inversion Hnd as [|? ? Hnot Hnd']; subst.
    destruct (str_eqb k0 k) eqn:H0.
    + apply str_eqb_eq in H0. subst k0. split.
      * intros [H|H]; [congruence|].
        exfalso. apply Hnot. change k with (fst (k, v)).
        apply in_map. assumption.
      * intros H. left. congruence.
    + apply str_eqb_neq in H0. rewrite <- (IH Hnd'). split.
      * intros [H|H]; [congruence | assumption].
      * tauto.
Qed.

(** X5.  The environment [start_child_process] gives the child: each of
    LANG, LANGUAGE, LC_ALL and LC_MESSAGES is set to "C" and every other
    variable has the value it has in the environment of the program.
    Keys stay unique, the variables that were there keep their places
    and the locale variables that were not are added behind them; so the
    entries of the list passed as [envp] are those of the environment
    with the locale variables forced, and no others. *)
Theorem child_env_forces_locale (environ : list (str * str)) :
  (forall k,
     dict_get k (child_env environ)
     = if str_in k locale_variables then Some (lit "C")
       else dict_get k environ)
  /\ (exists added,
        map fst (child_env environ) = map fst environ ++ added
        /\ incl added locale_variables)
  /\ (NoDup (map fst environ) ->
      NoDup (map fst (child_env environ))
      /\ forall k v,
           In (k ++ lit "=" ++ v) (child_envp environ)
           <-> exists k' v',
                 k ++ lit "=" ++ v = k' ++ lit "=" ++ v'
                 /\ if str_in k' locale_variables then v' = lit "C"
                    else In (k', v') environ).
Proof.
  assert (Hget : forall k,
             dict_get k (child_env environ)
             = if str_in k locale_variables then Some (lit "C")
               else dict_get k environ).
  { intros k. unfold child_env, locale_variables, str_in. simpl.
    rewrite !dict_get_set.
    rewrite (str_eqb_sym k (lit "LANG")), (str_eqb_sym k (lit "LANGUAGE")),
      (str_eqb_sym k (lit "LC_ALL")), (str_eqb_sym k (lit "LC_MESSAGES")).
    destruct (str_eqb (lit "LANG") k), (str_eqb (lit "LANGUAGE") k),
      (str_eqb (lit "LC_ALL") k), (str_eqb (lit "LC_MESSAGES") k);
      reflexivity. }
  split; [exact Hget|]. split.
  { unfold child_env, locale_variables. simpl. rewrite !dict_set_keys.
    repeat match goal with
           | |- context [if str_in ?k ?l then _ else _] =>
               destruct (str_in k l)
           end;
      rewrite <- ?app_assoc; simpl;
      first [ eexists; split; [reflexivity|]
            | exists []; split; [symmetry; apply app_nil_r|] ];
      intros x Hx; simpl in *; tauto. }
  intros Hnd.
  assert (Hnd' : NoDup (map fst (child_env environ))).
  { unfold child_env, locale_variables. simpl.
    repeat apply dict_set_NoDup. assumption. }
  split; [assumption|].
  assert (Hin : forall k v,
             In (k, v) (child_env environ)
             <-> if str_in k locale_variables then v = lit "C"
                 else In (k, v) environ).
  { intros k v. rewrite (dict_get_In k v _ Hnd'), Hget.
    destruct (str_in k locale_variables).
    - split; [intros H; inversion H; reflexivity | intros ->; reflexivity].
    - symmetry. apply dict_get_In. assumption. }
  intros k v. unfold child_envp. rewrite in_map_iff. split.
  - intros ([k' v'] & He & Hkv).
    exists k', v'. split; [symmetry; exact He | apply Hin; assumption].
  - intros (k' & v' & He & Hkv). exists (k', v').
    split; [symmetry; exact He | apply Hin; assumption].
Qed.

(* ================================================================== *)
(** * The menu item, the two streams and the order of reports *)
(* ================================================================== *)

(** X6.  A "Status" report from the child brings the check menu item in
    line with the recorded state.  Although [set_active] makes Gtk run
    [toggle_item_cb] again, the report sends no signal to the child and
    leaves the suspend timer alone: a report is never answered by a
    toggle. *)
Theorem status_report_syncs_item (line value : str) (s : Self) :
  re_match line = Some (lit "Status", value) ->
  result (child_stdout_line_cb line) s = Return tt
  /\ toggle_item_active (exec (child_stdout_line_cb line) s)
     = _status (exec (child_stdout_line_cb line) s)
  /\ signals (exec (child_stdout_line_cb line) s) = signals s
  /\ suspend_timer (exec (child_stdout_line_cb line) s) = suspend_timer s
  /\ timeouts (exec (child_stdout_line_cb line) s) = timeouts s.
Proof.
  intros Hm. unfold result, exec.
  rewrite (child_stdout_line_cb_match _ _ _ s Hm). unfold decoded.
  rewrite str_eqb_refl. repeat split; reflexivity.
Qed.

Lemma toggle_cb_item (s : Self) :
  toggle_item_active (exec toggle_cb s) = toggle_item_active s.
Proof.
  run_monad. destruct (suspend_timer s) as [id|]; simpl;
    [destruct (has_source id s)|]; reflexivity.
Qed.

(** X7.  A click on the check menu item flips the item and, when the item
    was in line with the recorded state, sends the signal and cancels the
    suspend timer.  A second click before the child has reported flips
    the item back, finds it in line again and sends nothing: two clicks
    in a row send one signal, where two calls of [toggle_cb] send two. *)
Theorem toggle_item_two_clicks (s s1 s2 : Self) :
  toggle_item_active s = _status s ->
  step s Toggle_item_activate s1 ->
  step s1 Toggle_item_activate s2 ->
  signals s1 = signals s ++ [SIGUSR1]
  /\ suspend_timer s1 = None
  /\ toggle_item_active s1 = negb (_status s1)
  /\ signals s2 = signals s1
  /\ toggle_item_active s2 = _status s2
  /\ worker_state s2 = worker_state s.
Proof.
  intros Hsync H1 H2.
  inversion H1; subst. inversion H2; subst. clear H1 H2.
  set (a := set_toggle_item_active (negb (toggle_item_active s)) s) in *.
  assert (E1 : exec toggle_item_cb a = exec toggle_cb a).
  { rewrite toggle_item_cb_run. unfold a. simpl. rewrite Hsync.
    destruct (_status s); reflexivity. }
  rewrite !E1.
  destruct (toggle_cb_run a) as (_ & Ht & _ & _ & _ & Hsig & Hws & _).
  pose proof (toggle_cb_item a) as Hitem.
  pose proof (worker_state_status _ _ Hws) as Hst.
  remember (exec toggle_cb a) as s1 eqn:Hs1.
  unfold a in Hsig, Hws, Hitem, Hst. simpl in Hsig, Hws, Hitem, Hst.
  assert (H1item : toggle_item_active s1 = negb (_status s1)).
  { rewrite Hitem, Hst, Hsync. reflexivity. }
  assert (E2 : exec toggle_item_cb
                 (set_toggle_item_active (negb (toggle_item_active s1)) s1)
               = set_toggle_item_active (negb (toggle_item_active s1)) s1).
  { rewrite toggle_item_cb_run. simpl. rewrite H1item.
    destruct (_status s1); reflexivity. }
  rewrite E2. simpl.
  repeat split; try assumption.
  rewrite H1item. apply negb_involutive.
Qed.

(** The loop of [child_data_cb] keeps whatever the buffer assignment and
    the line handler of its stream keep. *)
Lemma split_loop_preserves {A : Type} (P : Self -> A) (stdout : bool)
    (ib : buffer_ref) :
  (forall v y s, P (set_buf ib v (set_yielded y s)) = P s) ->
  (forall first s, P (snd (line_cb stdout first s)) = P s) ->
  forall n s, P (snd (split_loop n stdout ib s)) = P s.
Proof.
  intros Hset Hcb. induction n as [|n IH]; intros s; [reflexivity|].
  destruct (partition_nl_cases (get_buf ib s))
    as [[Hnone _]|(first & last & Hb & Hf & _)].
  - rewrite split_loop_done by assumption. reflexivity.
  - rewrite (split_loop_round _ _ _ _ _ _ Hb Hf).
    pose proof (Hcb first
                  (set_buf ib last
                     (set_yielded (yielded s ++ [(stdout, first)]) s)))
      as H.
    rewrite Hset in H.
    destruct (line_cb stdout first _) as [[u|e] s']; simpl in H.
    + rewrite IH. assumption.
    + assumption.
Qed.

Lemma child_data_cb_preserves {A : Type} (P : Self -> A) (stdout : bool)
    (ib : buffer_ref) :
  (forall v s, P (set_buf ib v s) = P s) ->
  (forall y s, P (set_yielded y s) = P s) ->
  (forall first s, P (snd (line_cb stdout first s)) = P s) ->
  forall read s, P (exec (child_data_cb (stdout, ib) read) s) = P s.
Proof.
  intros Hbuf Hyl Hcb read s. unfold exec.
  destruct (utf8_decode read) as [text|] eqn:Hd.
  - rewrite (child_data_cb_run _ _ _ _ _ Hd). unfold run_loop.
    pose proof (split_loop_preserves P stdout ib
                  (fun v y s0 => eq_trans (Hbuf v _) (Hyl y s0)) Hcb
                  (S (List.length
                        (get_buf ib (set_buf ib (get_buf ib s ++ text) s))))
                  (set_buf ib (get_buf ib s ++ text) s)) as H.
    rewrite Hbuf in H.
    destruct (split_loop _ stdout ib _) as [[u|e] s1]; exact H.
  - unfold child_data_cb. rewrite Hd. reflexivity.
Qed.

(** X8.  The two streams do not mix.  Data on the child's stderr never
    changes the mirrored worker state, the menu item or the stdout
    buffer; data on its stdout never changes the error log or the stderr
    buffer; and no data on either stream sends a signal or touches a
    timer. *)
Theorem streams_do_not_mix (read : list byte) (s : Self) :
  (worker_state (exec (child_data_cb stderr_watch read) s) = worker_state s
   /\ toggle_item_active (exec (child_data_cb stderr_watch read) s)
      = toggle_item_active s
   /\ input_buffer (exec (child_data_cb stderr_watch read) s)
      = input_buffer s)
  /\ (errors (exec (child_data_cb stdout_watch read) s) = errors s
      /\ error_buffer (exec (child_data_cb stdout_watch read) s)
         = error_buffer s)
  /\ (sched (exec (child_data_cb stderr_watch read) s) = sched s
      /\ sched (exec (child_data_cb stdout_watch read) s) = sched s).
Proof.
  unfold stderr_watch, stdout_watch.
  split; [|split].
  - repeat split.
    + apply (child_data_cb_preserves worker_state); reflexivity.
    + apply (child_data_cb_preserves toggle_item_active); reflexivity.
    + apply (child_data_cb_preserves input_buffer); reflexivity.
  - assert (Hcb : forall first s0,
               errors (snd (line_cb true first s0)) = errors s0
               /\ error_buffer (snd (line_cb true first s0))
                  = error_buffer s0).
    { intros first s0. unfold line_cb.
      rewrite child_stdout_line_cb_decoded.
      destruct (re_match first) as [[key value]|]; [|split; reflexivity].
      destruct (decoded_keeps key value s0) as (_ & He & _ & Her).
      split; assumption. }
    split.
    + apply (child_data_cb_preserves errors); try reflexivity.
      intros first s0. apply Hcb.
    + apply (child_data_cb_preserves error_buffer); try reflexivity.
      intros first s0. apply Hcb.
  - split; apply child_data_cb_sched.
Qed.

Lemma line_key_decoded (line : str) (s : Self) :
  child_stdout_line_cb line s
  = match re_match line with
    | Some (key, value) => decoded key value s
    | None => (Return tt, s)
    end.
Proof. apply child_stdout_line_cb_decoded. Qed.

Ltac decoded_cases :=
  unfold decoded;
  repeat match goal with
         | |- context [str_eqb ?k (lit ?x)] =>
             let K := fresh "K" in destruct (str_eqb k (lit x)) eqn:K
         | |- context [match int10 ?v with Some _ => _ | None => _ end] =>
             let I := fresh "I" in destruct (int10 v) eqn:I
         | |- context [if (?a <? ?b)%nat then _ else _] =>
             destruct (a <? b)%nat
         end.

(** X9.  Reports with different keys can come in either order: decoding
    two stdout lines whose keys differ (or of which only one matches)
    leaves the same object whichever comes first, also when one of them
    raises. *)
Theorem reports_with_distinct_keys_commute (line1 line2 : str) (s : Self) :
  line_key line1 <> line_key line2 ->
  exec (child_stdout_line_cb line2) (exec (child_stdout_line_cb line1) s)
  = exec (child_stdout_line_cb line1) (exec (child_stdout_line_cb line2) s).
Proof.
  unfold line_key, exec. rewrite !line_key_decoded.
  destruct (re_match line1) as [[k1 v1]|], (re_match line2) as [[k2 v2]|];
    try reflexivity.
  intros Hne.
  assert (Hk : k1 <> k2) by congruence. clear Hne.
  decoded_cases; try reflexivity;
    exfalso; apply Hk;
    repeat match goal with
           | H : str_eqb _ _ = true |- _ => apply str_eqb_eq in H
           end; congruence.
Qed.

(** X10.  The last report of a key wins: when two stdout lines have the
    same key and the second is decoded without an exception, the object
    is as if the first had never come. *)
Theorem last_report_wins (line1 line2 : str) (s : Self) :
  line_key line1 = line_key line2 ->
  result (child_stdout_line_cb line2) (exec (child_stdout_line_cb line1) s)
  = Return tt ->
  exec (child_stdout_line_cb line2) (exec (child_stdout_line_cb line1) s)
  = exec (child_stdout_line_cb line2) s.
Proof.
  unfold line_key, exec, result. rewrite !line_key_decoded.
  destruct (re_match line1) as [[k1 v1]|], (re_match line2) as [[k2 v2]|];
    try discriminate; try reflexivity.
  intros Hk. inversion Hk; subst k2. clear Hk.
  decoded_cases; simpl; intros Hret; try reflexivity; discriminate.
Qed.

(* ================================================================== *)
(** * The exit of the child, in general *)
(* ================================================================== *)

Lemma set_errors_same (s : Self) : set_errors (errors s) s = s.
Proof. destruct s; reflexivity. Qed.

(** The loop that empties a pipe: it raises exactly when a read before
    the first empty one is not well-formed UTF-8, and what it has decoded
    until then is added to the error log when the pipe is stderr, and
    dropped when it is stdout. *)
Lemma drain_run (dest_is_stderr : bool) (reads : list (list byte)) :
  forall s,
    drain dest_is_stderr reads s
    = (if snd (drain_text reads) then Return tt
       else Raise UnicodeDecodeError,
       if dest_is_stderr
       then set_errors (errors s ++ fst (drain_text reads)) s
       else s).
Proof.
  induction reads as [|r reads IH]; intros s.
  - simpl. rewrite app_nil_r, set_errors_same.
    destruct dest_is_stderr; reflexivity.
  - cbn [drain drain_text].
    destruct (utf8_decode r) as [[|c buf]|].
    + simpl. unfold ret. rewrite app_nil_r, set_errors_same.
      destruct dest_is_stderr; reflexivity.
    + destruct (drain_text reads) as [t ok] eqn:Hd.
      destruct dest_is_stderr; unfold bind, modify, ret;
        rewrite IH; rewrite ?Hd; cbn [fst snd].
      * unfold set_errors. simpl. rewrite <- app_assoc. reflexivity.
      * reflexivity.
    + simpl. unfold raise. rewrite app_nil_r, set_errors_same.
      destruct dest_is_stderr; reflexivity.
Qed.

(** X11.  What [child_cb] does, for every exit status and whatever is
    left in the two pipes.  If a read that is left is not well-formed
    UTF-8 it raises UnicodeDecodeError before it has looked at the exit
    status: the main loop is not quit and no dialog is shown.  Otherwise
    a clean exit status quits the main loop and shows nothing, and any
    other status runs the error dialog on the error log followed by what
    was left in the stderr pipe, and exits with status 255.  What was
    left in the stdout pipe is dropped: in no case does [child_cb] change
    the mirrored worker state or a buffer, or send a signal. *)
Theorem child_cb_outcomes (status : Z)
    (stdout_reads stderr_reads : list (list byte)) (s : Self) :
  main_quit s = false ->
  (snd (drain_text stdout_reads) && snd (drain_text stderr_reads) = false ->
   result (child_cb status stdout_reads stderr_reads) s
   = Raise UnicodeDecodeError
   /\ supervisor_exit (child_cb status stdout_reads stderr_reads s) = None
   /\ main_quit (exec (child_cb status stdout_reads stderr_reads) s) = false
   /\ error_dialog (exec (child_cb status stdout_reads stderr_reads) s)
      = error_dialog s)
  /\ (snd (drain_text stdout_reads) && snd (drain_text stderr_reads) = true ->
      clean_exit status = true ->
      result (child_cb status stdout_reads stderr_reads) s = Return tt
      /\ supervisor_exit (child_cb status stdout_reads stderr_reads s)
         = Some 0
      /\ main_quit (exec (child_cb status stdout_reads stderr_reads) s)
         = true
      /\ error_dialog (exec (child_cb status stdout_reads stderr_reads) s)
         = error_dialog s)
  /\ (snd (drain_text stdout_reads) && snd (drain_text stderr_reads) = true ->
      clean_exit status = false ->
      result (child_cb status stdout_reads stderr_reads) s
      = Raise (SystemExit (-1))
      /\ supervisor_exit (child_cb status stdout_reads stderr_reads s)
         = Some 255
      /\ main_quit (exec (child_cb status stdout_reads stderr_reads) s)
         = false
      /\ error_dialog (exec (child_cb status stdout_reads stderr_reads) s)
         = Some (error_markup
                   (errors s ++ fst (drain_text stderr_reads))))
  /\ (worker_state (exec (child_cb status stdout_reads stderr_reads) s)
      = worker_state s
      /\ input_buffer (exec (child_cb status stdout_reads stderr_reads) s)
         = input_buffer s
      /\ error_buffer (exec (child_cb status stdout_reads stderr_reads) s)
         = error_buffer s
      /\ signals (exec (child_cb status stdout_reads stderr_reads) s)
         = signals s).
Proof.
  intros Hq. unfold result, exec, clean_exit.
  unfold child_cb, bind. rewrite (drain_run false stdout_reads s).
  destruct (snd (drain_text stdout_reads)); simpl.
  2:{ rewrite Hq. repeat split; intros; try discriminate; reflexivity. }
  rewrite (drain_run true stderr_reads s).
  destruct (snd (drain_text stderr_reads)); simpl.
  2:{ rewrite Hq. repeat split; intros; try discriminate; reflexivity. }
  unfold glib_spawn_check_exit_status, try_except, gtk_main_quit, sys_exit,
    bind, ret, raise, gets, modify.
  destruct (WIFEXITED status && (WEXITSTATUS status =? 0)); simpl;
    repeat split; intros; try discriminate; try reflexivity;
    assumption.
Qed.

Lemma wait_status_exited (code : Z) :
  0 <= code < 256 ->
  WIFEXITED (code * 256) = true /\ WEXITSTATUS (code * 256) = code.
Proof.
  intros Hc. unfold WIFEXITED, WEXITSTATUS.
  change 127 with (Z.ones 7). change 255 with (Z.ones 8).
  rewrite !Z.land_ones by lia.
  rewrite Z.shiftr_div_pow2 by lia.
  change (2 ^ 8) with 256. change (2 ^ 7) with 128.
  rewrite Z.div_mul by lia. rewrite (Z.mod_small code) by lia.
  replace (code * 256) with (code * 2 * 128) by lia.
  rewrite Z.mod_mul by lia. split; reflexivity.
Qed.

Lemma wait_status_signaled (status : Z) :
  0 < status mod 128 -> WIFEXITED status = false.
Proof.
  intros Hs. unfold WIFEXITED. change 127 with (Z.ones 7).
  rewrite Z.land_ones by lia. change (2 ^ 7) with 128.
  apply Z.eqb_neq. lia.
Qed.

(** X12.  With nothing left in the pipes, the exit code of the child
    decides how the program ends: exit code 0 (wait status 0) ends it
    with status 0 and no dialog, every exit code from 1 to 255 (wait
    status [code * 256]) and every death by a signal (a wait status whose
    low seven bits are not zero) ends it with status 255 after the error
    dialog. *)
Theorem child_exit_code_decides (s : Self) :
  main_quit s = false ->
  (forall code,
     0 <= code < 256 ->
     supervisor_exit (child_cb (code * 256) [] [] s)
     = Some (if code =? 0 then 0 else 255)
     /\ error_dialog (exec (child_cb (code * 256) [] []) s)
        = (if code =? 0 then error_dialog s
           else Some (error_markup (errors s))))
  /\ (forall status,
        0 < status mod 128 ->
        supervisor_exit (child_cb status [] [] s) = Some 255
        /\ error_dialog (exec (child_cb status [] []) s)
           = Some (error_markup (errors s))).
Proof.
  intros Hq. split.
  - intros code Hc.
    destruct (wait_status_exited code Hc) as [He Hw].
    destruct (child_cb_classifies (code * 256) s Hq) as [Hclean Hfail].
    rewrite He, Hw in Hclean, Hfail. simpl in Hclean, Hfail.
    unfold exec.
    destruct (Z.eqb_spec code 0) as [->|Hne].
    + destruct (Hclean eq_refl) as [Hr Hx].
      rewrite Hx, Hr. simpl. split; reflexivity.
    + destruct (Hfail eq_refl) as [Hr Hx].
      rewrite Hx, Hr. simpl. split; reflexivity.
  - intros status Hs.
    destruct (child_cb_classifies status s Hq) as [_ Hfail].
    rewrite (wait_status_signaled status Hs) in Hfail. simpl in Hfail.
    destruct (Hfail eq_refl) as [Hr Hx]. unfold exec.
    rewrite Hx, Hr. split; reflexivity.
Qed.

(* ================================================================== *)
(** * The temperature, written and read back *)
(* ================================================================== *)


(* ================================================================== *)
(** * The suspend timer before a timer has fired *)
(* ================================================================== *)

Lemma not_found_after_remove (s : Self) :
  sources_not_found (exec remove_suspend_timer s)
  = match suspend_timer s with
    | Some id =>
        if has_source id s then sources_not_found s
        else sources_not_found s ++ [id]
    | None => sources_not_found s
    end.
Proof.
  run_monad. destruct (suspend_timer s) as [id|]; simpl;
    [destruct (has_source id s)|]; reflexivity.
Qed.

Lemma not_found_after_toggle (s : Self) :
  sources_not_found (exec toggle_cb s)
  = sources_not_found (exec remove_suspend_timer s).
Proof.
  run_monad. destruct (suspend_timer s) as [id|]; simpl;
    [destruct (has_source id s)|]; reflexivity.
Qed.

Lemma not_found_after_suspend (minutes : Z) (s : Self) :
  sources_not_found (exec (suspend_cb minutes) s)
  = sources_not_found (exec remove_suspend_timer s).
Proof.
  run_monad. unfold has_source.
  destruct (_status s); simpl;
    destruct (suspend_timer s) as [id|]; simpl;
    try destruct (existsb _ (timeouts s)); reflexivity.
Qed.

Lemma timer_exact_removed (s : Self) :
  timer_exact s ->
  match suspend_timer s with
  | Some id => without id (timeouts s)
  | None => timeouts s
  end = []
  /\ sources_not_found (exec remove_suspend_timer s) = [].
Proof.
  intros [Ht Hnf]. rewrite not_found_after_remove.
  destruct (suspend_timer s) as [id|].
  - destruct Ht as (t & Ht & Hid). unfold has_source. rewrite Ht. simpl.
    rewrite Hid, N.eqb_refl. simpl. split; [reflexivity | assumption].
  - split; assumption.
Qed.

Lemma step_timer_exact (s s' : Self) (e : event) :
  step s e s' ->
  (forall id, e <> Timeout_expired id) ->
  timer_exact s -> timer_exact s'.
Proof.
  assert (Hkeep : forall s0 s1,
             suspend_timer s1 = suspend_timer s0 ->
             timeouts s1 = timeouts s0 ->
             sources_not_found s1 = sources_not_found s0 ->
             timer_exact s0 -> timer_exact s1).
  { intros s0 s1 H1 H2 H3 Hex. unfold timer_exact.
    rewrite H1, H2, H3. assumption. }
  assert (Htoggle : forall s0, timer_exact s0 -> timer_exact (exec toggle_cb s0)).
  { intros s0 Hex.
    destruct (toggle_cb_run s0) as (_ & H1 & H2 & _).
    destruct (timer_exact_removed s0 Hex) as [Hrm Hnf].
    unfold timer_exact.
    rewrite H1, H2, Hrm, not_found_after_toggle, Hnf. split; reflexivity. }
  intros Hstep Hev Hex. destruct Hstep.
  - apply Htoggle; assumption.
  - rewrite toggle_item_cb_run.
    destruct (Bool.eqb _ _); [|apply Htoggle];
      apply (Hkeep s); solve [assumption | reflexivity].
  - destruct (suspend_cb_run minutes s) as (_ & H1 & H2 & _).
    destruct (timer_exact_removed s Hex) as [Hrm Hnf].
    unfold timer_exact.
    rewrite H1, H2, Hrm, not_found_after_suspend, Hnf. simpl.
    split; [|reflexivity]. eexists. split; reflexivity.
  - exfalso. apply (Hev (src_id t)). reflexivity.
  - pose proof (child_data_cb_sched data read s) as Hs.
    unfold sched in Hs. inversion Hs.
    apply (Hkeep s); assumption.
  - apply (Hkeep s); solve [assumption | reflexivity].
  - apply (Hkeep s); solve [assumption | reflexivity].
Qed.

(** X14.  As long as no timer has fired, the object knows its timer
    exactly: in every state the main loop reaches from the one
    [__init__] builds, [self.suspend_timer] is [None] when no timeout is
    pending and the id of the one pending timeout otherwise, and
    [remove_suspend_timer] has never asked GLib to remove a source that
    does not exist. *)
Theorem timer_exact_until_a_timer_fires (es : list event) (s : Self) :
  steps init es s ->
  no_timeout es ->
  timer_exact s.
Proof.
  assert (Hgen : forall s0 es0 s1,
             steps s0 es0 s1 -> no_timeout es0 -> timer_exact s0 ->
             timer_exact s1).
  { induction 1 as [|s0 e s1 es0 s2 Hstep _ IH]; intros Hno Hex;
      [assumption|].
    apply IH.
    - intros id Hin. apply (Hno id). right; assumption.
    - apply (step_timer_exact _ _ _ Hstep); [|assumption].
      intros id ->. apply (Hno id). left; reflexivity. }
  intros Hsteps Hno. apply (Hgen _ _ _ Hsteps Hno).
  split; reflexivity.
Qed.

(* ================================================================== *)
(** * A whole suspension, and the stdout stream as a whole *)
(* ================================================================== *)

(** X15.  A whole suspension.  On a reachable object whose worker is
    enabled, a suspend request sends the signal at once and arms its
    timer; when the child has reported "Status: Disabled" and the timer
    fires, the signal is sent a second time and no timer is left
    pending: two signals in all, one to disable and one to enable
    again. *)
Theorem suspension_sends_two_signals (minutes : Z) (s : Self) :
  reachable s ->
  _status s = true ->
  exists t,
    timeouts (exec (child_stdout_line_cb (lit "Status: Disabled"))
                (exec (suspend_cb minutes) s)) = [t]
    /\ deadline t = clock s + minutes * 60
    /\ signals (exec (suspend_cb minutes) s) = signals s ++ [SIGUSR1]
    /\ signals
         (dispatch_timeout t
            (exec (child_stdout_line_cb (lit "Status: Disabled"))
               (exec (suspend_cb minutes) s)))
       = signals s ++ [SIGUSR1; SIGUSR1]
    /\ timeouts
         (dispatch_timeout t
            (exec (child_stdout_line_cb (lit "Status: Disabled"))
               (exec (suspend_cb minutes) s))) = [].
Proof.
  intros Hreach Hst.
  pose proof (timer_inv_removed s (reachable_timer_inv s Hreach)) as Hrm.
  destruct (suspend_cb_run minutes s) as (_ & _ & Ht & _ & _ & Hsig & _).
  rewrite Hrm in Ht. simpl in Ht. rewrite Hst in Hsig.
  remember (exec (suspend_cb minutes) s) as s1 eqn:Hs1.
  assert (Hdec : exec (child_stdout_line_cb (lit "Status: Disabled")) s1
                 = set_toggle_item_active false (set_status false s1)).
  { unfold exec.
    rewrite (child_stdout_line_cb_match _ (lit "Status") (lit "Disabled"));
      reflexivity. }
  rewrite !Hdec.
  exists (mkTimeout (next_source_id s) (minutes * 60) (clock s) Reenable_cb).
  split; [simpl; assumption|]. split; [reflexivity|]. split; [assumption|].
  rewrite dispatch_timeout_run. simpl. rewrite Ht, Hsig. simpl.
  rewrite N.eqb_refl, <- app_assoc. split; reflexivity.
Qed.

Lemma decoded_worker_state (key value : str) (s t : Self) :
  worker_state s = worker_state t ->
  worker_state (snd (decoded key value s))
  = worker_state (snd (decoded key value t)).
Proof.
  unfold worker_state. intros H. inversion H.
  decoded_cases; simpl; congruence.
Qed.

Lemma line_worker_state (line : str) (s t : Self) :
  worker_state s = worker_state t ->
  worker_state (exec (child_stdout_line_cb line) s)
  = worker_state (exec (child_stdout_line_cb line) t).
Proof.
  intros H. unfold exec. rewrite !child_stdout_line_cb_decoded.
  destruct (re_match line) as [[key value]|];
    [apply decoded_worker_state | ]; assumption.
Qed.

Lemma lines_worker_state (ls : list str) :
  forall s t,
    worker_state s = worker_state t ->
    worker_state
      (fold_left (fun st l => exec (child_stdout_line_cb l) st) ls s)
    = worker_state
        (fold_left (fun st l => exec (child_stdout_line_cb l) st) ls t).
Proof.
  induction ls as [|l ls IH]; intros s t H; simpl; [assumption|].
  apply IH, line_worker_state, H.
Qed.

Lemma split_loop_decodes (n : nat) :
  forall ib s s1,
    (List.length (get_buf ib s) < n)%nat ->
    split_loop n true ib s = (Return tt, s1) ->
    worker_state s1
    = worker_state
        (fold_left (fun st l => exec (child_stdout_line_cb l) st)
           (fst (lines_of (get_buf ib s))) s).
Proof.
  induction n as [|n IH]; intros ib s s1 Hn Hrun; [lia|].
  destruct (partition_nl_cases (get_buf ib s))
    as [[Hnone _]|(first & last & Hb & Hf & _)].
  - rewrite split_loop_done in Hrun by assumption.
    inversion Hrun; subst s1.
    rewrite (lines_of_none _ Hnone). reflexivity.
  - rewrite (split_loop_round _ _ _ _ _ _ Hb Hf) in Hrun.
    set (s0 := set_buf ib last
                 (set_yielded (yielded s ++ [(true, first)]) s)) in *.
    pose proof (round_buffer true ib s first last
                  (yielded s ++ [(true, first)])) as Hbuf.
    fold s0 in Hbuf.
    assert (Hws : worker_state (exec (child_stdout_line_cb first) s0)
                  = worker_state (exec (child_stdout_line_cb first) s)).
    { apply line_worker_state. unfold s0. destruct ib; reflexivity. }
    unfold line_cb, exec in *.
    destruct (child_stdout_line_cb first s0) as [[u|e] s'];
      [|discriminate].
    simpl in Hbuf, Hws.
    rewrite Hb, length_app in Hn. simpl in Hn.
    rewrite (IH ib s' s1) by (rewrite ?Hbuf; solve [lia | assumption]).
    rewrite Hbuf, Hb, (lines_of_found _ last Hf). simpl.
    apply lines_worker_state. assumption.
Qed.

(** X16.  On the child's stdout, [child_data_cb] is the decoder run over
    the complete lines: when a call returns, the mirrored worker state is
    the one reached by decoding, in order, every complete line of the
    buffered text followed by the text read. *)
Theorem stdout_data_is_decoded_lines (read : list byte) (text : str)
    (s s' : Self) :
  utf8_decode read = Some text ->
  child_data_cb stdout_watch read s = (Return true, s') ->
  worker_state s'
  = worker_state
      (fold_left (fun st l => exec (child_stdout_line_cb l) st)
         (fst (lines_of (input_buffer s ++ text))) s).
Proof.
  intros Hd Hrun. unfold stdout_watch in Hrun.
  rewrite (child_data_cb_run _ _ _ _ _ Hd) in Hrun. unfold run_loop in Hrun.
  destruct (split_loop _ true Input_buffer _) as [[[]|e] s1] eqn:Hloop;
    [|discriminate].
  inversion Hrun; subst s1.
  apply split_loop_decodes in Hloop; [|apply Nat.lt_succ_diag_r].
  rewrite Hloop. simpl. apply lines_worker_state. reflexivity.
Qed.

End Program.

(* ================================================================== *)
(** * The program on concrete inputs *)
(* ================================================================== *)

(** The inputs below are ASCII but for one byte sequence that only the
    stderr stream sees, so nothing depends on the choice of the Unicode
    tables. *)
#[local] Existing Instance ascii_only.

Local Open Scope Z_scope.

Lemma C1_witness :
  feed stdout_watch (read1 :: [read2; read3]) init = Some after_reads
  /\ child_data_cb stdout_watch (List.concat (read1 :: [read2; read3])) init
     = (Return true, after_reads)
  /\ yielded after_reads
     = [(true, lit "Status: Enabled"); (true, lit "Period: Night")]
  /\ input_buffer after_reads = lit "Col".
Proof.
  assert (H : feed stdout_watch (read1 :: [read2; read3]) init
              = Some after_reads) by (vm_compute; reflexivity).
  split; [exact H|].
  split; [|split; vm_compute; reflexivity].
  exact (proj1 (@C1_chunked_feed_equals_whole ascii_only stdout_watch
                  read1 [read2; read3] init after_reads H)).
Defined.

(** The claim as stated fails on the code.  The three bytes of "é\n",
    read as one byte and then two, make both calls raise
    UnicodeDecodeError and no line is split off, while the same bytes in
    a single read give the line "é".  And when a stdout line makes the
    decoder raise, the lines behind it in the same read stay in the
    buffer, newline and all, while they are split off when they come in
    a read of their own. *)
Lemma C1_counterexample :
  (result (child_data_cb stderr_watch [xc3]) init = Raise UnicodeDecodeError
   /\ result (child_data_cb stderr_watch [xa9; x0a])
        (exec (child_data_cb stderr_watch [xc3]) init)
      = Raise UnicodeDecodeError
   /\ yielded (exec (child_data_cb stderr_watch [xa9; x0a])
                 (exec (child_data_cb stderr_watch [xc3]) init)) = []
   /\ yielded (exec (child_data_cb stderr_watch [xc3; xa9; x0a]) init)
      = [(false, [233%N])])
  /\ (yielded
        (exec (child_data_cb stdout_watch
                 (list_byte_of_string "Status: Enabled" ++ [x0a]))
           (exec (child_data_cb stdout_watch
                    (list_byte_of_string "Color temperature: warm" ++ [x0a]))
              init))
      = [(true, lit "Color temperature: warm"); (true, lit "Status: Enabled")]
      /\ yielded
           (exec (child_data_cb stdout_watch
                    (list_byte_of_string "Color temperature: warm" ++ [x0a]
                     ++ list_byte_of_string "Status: Enabled" ++ [x0a]))
              init)
         = [(true, lit "Color temperature: warm")]
      /\ input_buffer
           (exec (child_data_cb stdout_watch
                    (list_byte_of_string "Color temperature: warm" ++ [x0a]
                     ++ list_byte_of_string "Status: Enabled" ++ [x0a]))
              init)
         = lit "Status: Enabled" ++ [NL]).
Proof. repeat split; reflexivity. Qed.

Lemma C2_witness :
  result (child_stdout_line_cb (lit "Status: Suspended")) init = Return tt
  /\ _status (exec (child_stdout_line_cb (lit "Status: Suspended")) init)
     = true.
Proof.
  apply (proj1 (proj2 (proj2 (@C2_decode_status_temperature_period
                                ascii_only init)))
           (lit "Status: Suspended") (lit "Suspended") eq_refl).
  discriminate.
Defined.

Lemma C3_witness :
  re_match (lit "Location: 55.70, 12.55")
  = Some (lit "Location", lit "55.70, 12.55")
  /\ _location (exec (child_stdout_line_cb (lit "Location: 55.70, 12.55"))
                  init)
     = StrList [lit "55.70"; lit "12.55"].
Proof.
  split; [reflexivity|].
  exact (proj1 (@C3_location_stored_as_split_text ascii_only
                  (lit "Location: 55.70, 12.55") (lit "55.70, 12.55")
                  init eq_refl)).
Defined.

(** The claim as stated fails on the code: what is stored for
    "Location: 51.50, -0.12" is a list of two strings, no pair of floats,
    and a value with two separators is stored as three components. *)
Lemma C3_counterexample :
  _location (exec (child_stdout_line_cb (lit "Location: 51.50, -0.12")) init)
  = StrList [lit "51.50"; lit "-0.12"]
  /\ (forall latitude longitude,
        _location
          (exec (child_stdout_line_cb (lit "Location: 51.50, -0.12")) init)
        <> FloatPair latitude longitude)
  /\ _location (exec (child_stdout_line_cb (lit "Location: 1, 2, 3")) init)
     = StrList [lit "1"; lit "2"; lit "3"].
Proof.
  split; [reflexivity|]. split; [|reflexivity].
  intros latitude longitude. discriminate.
Qed.

Lemma C4_witness :
  ~ kv_shape (lit "garbage line without colon")
  /\ child_stdout_line_cb (lit "garbage line without colon") init
     = (Return tt, init).
Proof.
  assert (H : ~ kv_shape (lit "garbage line without colon")).
  { intros Hs. apply kv_shape_colon in Hs. simpl in Hs.
    repeat (destruct Hs as [Hs|Hs]; [discriminate|]). exact Hs. }
  split; [exact H|].
  exact (@C4_unmatched_line_ignored ascii_only
           (lit "garbage line without colon") init H).
Defined.

(** A request for 30 minutes on the object [__init__] builds, ten minutes
    later a request for 60 minutes: the timer of the first request (source
    4) is replaced by one timer (source 5) due 3600 seconds after the second
    request, and source 4 is never dispatched. *)
Lemma C5_witness :
  reachable init
  /\ steps (exec (suspend_cb 30) init) [Time_passes 600]
       (set_clock 600 (exec (suspend_cb 30) init))
  /\ In (mkTimeout 4 1800 0 Reenable_cb)
       (timeouts (set_clock 600 (exec (suspend_cb 30) init)))
  /\ timeouts (exec (suspend_cb 60)
                 (set_clock 600 (exec (suspend_cb 30) init)))
     = [mkTimeout 5 3600 600 Reenable_cb]
  /\ exists t,
       timeouts (exec (suspend_cb 60)
                   (set_clock 600 (exec (suspend_cb 30) init))) = [t]
       /\ deadline t = 600 + 60 * 60
       /\ forall es' s2,
            steps (exec (suspend_cb 60)
                     (set_clock 600 (exec (suspend_cb 30) init))) es' s2 ->
            ~ In (Timeout_expired 4) es'.
Proof.
  assert (H : reachable init) by (exists []; constructor).
  assert (Hrun : steps (exec (suspend_cb 30) init) [Time_passes 600]
                   (set_clock 600 (exec (suspend_cb 30) init))).
  { apply steps_cons with (s' := set_clock 600 (exec (suspend_cb 30) init)).
    - apply (step_time (exec (suspend_cb 30) init) 600). discriminate.
    - apply steps_nil. }
  assert (Hpending : In (mkTimeout 4 1800 0 Reenable_cb)
                       (timeouts (set_clock 600 (exec (suspend_cb 30) init)))).
  { left. reflexivity. }
  split; [exact H|]. split; [exact Hrun|]. split; [exact Hpending|].
  split; [reflexivity|].
  exact (proj2 (proj2 (@C5_single_pending_timer ascii_only init H))
           [Time_passes 600] (set_clock 600 (exec (suspend_cb 30) init))
           Hrun Hpending).
Defined.

Lemma C6_witness :
  _status init = false
  /\ signals (exec (suspend_cb 120) init) = signals init
  /\ timeouts (exec (suspend_cb 120) init) = [mkTimeout 4 7200 0 Reenable_cb].
Proof.
  split; [reflexivity|]. split; [|reflexivity].
  exact (proj1 (proj2 (proj1 (C6_suspend_while_disabled_and_reenable_check
                                init 120
                                (mkTimeout 4 7200 0 Reenable_cb))
                         eq_refl))).
Defined.

Lemma C8_witness :
  exists read new line value,
    Child_data stdout_watch
      (list_byte_of_string "Status: Enabled" ++ [x0a])
    = Child_data stdout_watch read
    /\ yielded (exec (child_data_cb stdout_watch
                        (list_byte_of_string "Status: Enabled" ++ [x0a]))
                  init)
       = yielded init ++ new
    /\ In (true, line) new
    /\ re_match line = Some (lit "Status", value).
Proof.
  apply (proj2 (proj2 (@C8_toggle_is_a_request ascii_only init))
           (Child_data stdout_watch
              (list_byte_of_string "Status: Enabled" ++ [x0a]))).
  - apply step_child_data. left; reflexivity.
  - discriminate.
Defined.

(** "Color temperature: warm" raises, and so does a value of 4301 digits,
    where one of 4300 digits does not. *)
Lemma C10_witness :
  child_stdout_line_cb (lit "Color temperature: warm") init
  = (Raise ValueError, init)
  /\ result (child_stdout_line_cb
               (lit "Color temperature: " ++ repeat 57%N 4301 ++ lit "K"))
       init
     = Raise ValueError
  /\ result (child_stdout_line_cb
               (lit "Color temperature: " ++ repeat 57%N 4300 ++ lit "K"))
       init
     <> Raise ValueError.
Proof.
  assert (Hdigits : forall n, Forall (fun c => (48 <= c <= 57)%N)
                                (repeat 57%N n)).
  { intros n. apply Forall_forall. intros c Hc.
    apply repeat_spec in Hc. subst c. split; discriminate. }
  split.
  { exact (proj1 (@C10_decoder_exceptions ascii_only
                    (lit "Color temperature: warm") init)
             (lit "warm") eq_refl eq_refl). }
  split.
  - apply (proj2 (proj2 (@C10_decoder_exceptions ascii_only
                           (lit "Color temperature: " ++ repeat 57%N 4301
                            ++ lit "K") init))
             (repeat 57%N 4301) ltac:(discriminate) (Hdigits _) eq_refl).
    rewrite repeat_length. reflexivity.
  - intros Hraise.
    apply (proj2 (proj2 (@C10_decoder_exceptions ascii_only
                           (lit "Color temperature: " ++ repeat 57%N 4300
                            ++ lit "K") init))
             (repeat 57%N 4300) ltac:(discriminate) (Hdigits _) eq_refl)
      in Hraise.
    rewrite repeat_length in Hraise. discriminate Hraise.
Defined.

(** The claim as stated fails on the code: "Color temperature" is not the
    only key with which the decoder raises.  A "Location" line with a
    single component is not ignored either, it raises IndexError (after
    the location has been stored). *)
Lemma C10_counterexample :
  re_match (lit "Location: 51.50") = Some (lit "Location", lit "51.50")
  /\ result (child_stdout_line_cb (lit "Location: 51.50")) init
     = Raise IndexError
  /\ _location (exec (child_stdout_line_cb (lit "Location: 51.50")) init)
     = StrList [lit "51.50"].
Proof. repeat split; reflexivity. Qed.

Lemma X2_witness :
  utf8_decode (list_byte_of_string "fatal ") = Some (lit "fatal ")
  /\ errors (exec (child_data_cb stderr_watch (list_byte_of_string "fatal "))
               init)
     ++ error_buffer
          (exec (child_data_cb stderr_watch (list_byte_of_string "fatal "))
             init)
     = errors init ++ error_buffer init ++ lit "fatal ".
Proof.
  split; [reflexivity|].
  exact (proj2 (@stderr_text_kept ascii_only
                  (list_byte_of_string "fatal ") (lit "fatal ") init
                  eq_refl)).
Defined.

Lemma X3_witness : kv_shape (lit "Period: Night").
Proof.
  apply (proj2 (@kv_shape_iff_match ascii_only (lit "Period: Night")
                  ltac:(simpl; intuition discriminate))).
  exists (lit "Period"), (lit "Night"). reflexivity.
Defined.

Lemma X5_witness :
  NoDup (map fst [(lit "LC_ALL", lit "da_DK"); (lit "HOME", lit "/root")])
  /\ NoDup (map fst (child_env [(lit "LC_ALL", lit "da_DK");
                                (lit "HOME", lit "/root")])).
Proof.
  assert (H : NoDup (map fst [(lit "LC_ALL", lit "da_DK");
                              (lit "HOME", lit "/root")])).
  { repeat constructor; simpl; intuition discriminate. }
  split; [exact H|].
  exact (proj1 (proj2 (proj2 (child_env_forces_locale
                                [(lit "LC_ALL", lit "da_DK");
                                 (lit "HOME", lit "/root")])) H)).
Defined.

Lemma X6_witness :
  re_match (lit "Status: Enabled") = Some (lit "Status", lit "Enabled")
  /\ toggle_item_active (exec (child_stdout_line_cb (lit "Status: Enabled"))
                           init)
     = _status (exec (child_stdout_line_cb (lit "Status: Enabled")) init).
Proof.
  split; [reflexivity|].
  exact (proj1 (proj2 (status_report_syncs_item
                         (lit "Status: Enabled") (lit "Enabled") init
                         eq_refl))).
Defined.

Lemma X7_witness :
  toggle_item_active init = _status init
  /\ signals
       (exec toggle_item_cb
          (set_toggle_item_active (negb (toggle_item_active init)) init))
     = signals init ++ [SIGUSR1].
Proof.
  split; [reflexivity|].
  exact (proj1 (toggle_item_two_clicks init _ _ eq_refl
                  (step_toggle_item init)
                  (step_toggle_item
                     (exec toggle_item_cb
                        (set_toggle_item_active
                           (negb (toggle_item_active init)) init))))).
Defined.

Lemma X9_witness :
  line_key (lit "Status: Enabled") <> line_key (lit "Period: Night")
  /\ exec (child_stdout_line_cb (lit "Period: Night"))
       (exec (child_stdout_line_cb (lit "Status: Enabled")) init)
     = exec (child_stdout_line_cb (lit "Status: Enabled"))
         (exec (child_stdout_line_cb (lit "Period: Night")) init).
Proof.
  assert (H : line_key (lit "Status: Enabled")
              <> line_key (lit "Period: Night")).
  { intros E. vm_compute in E. discriminate. }
  split; [exact H|].
  exact (reports_with_distinct_keys_commute
           (lit "Status: Enabled") (lit "Period: Night") init H).
Defined.

Lemma X10_witness :
  line_key (lit "Period: Daytime") = line_key (lit "Period: Night")
  /\ exec (child_stdout_line_cb (lit "Period: Night"))
       (exec (child_stdout_line_cb (lit "Period: Daytime")) init)
     = exec (child_stdout_line_cb (lit "Period: Night")) init.
Proof.
  split; [reflexivity|].
  exact (last_report_wins (lit "Period: Daytime") (lit "Period: Night")
           init eq_refl eq_refl).
Defined.

Lemma X11_witness :
  main_quit init = false
  /\ supervisor_exit
       (child_cb 256 [] [list_byte_of_string "fatal error" ++ [x0a]] init)
     = Some 255.
Proof.
  split; [reflexivity|].
  exact (proj1 (proj2 (proj1 (proj2 (proj2
           (child_cb_outcomes 256 []
              [list_byte_of_string "fatal error" ++ [x0a]] init eq_refl)))
           eq_refl eq_refl))).
Defined.

Lemma X12_witness :
  main_quit init = false
  /\ supervisor_exit (child_cb (1 * 256) [] [] init) = Some 255.
Proof.
  split; [reflexivity|].
  exact (proj1 (proj1 (child_exit_code_decides init eq_refl) 1
                  ltac:(lia))).
Defined.


Lemma X14_witness :
  steps init [Suspend_item_activate 30; Status_icon_activate]
    (exec toggle_cb (exec (suspend_cb 30) init))
  /\ no_timeout [Suspend_item_activate 30; Status_icon_activate]
  /\ timer_exact (exec toggle_cb (exec (suspend_cb 30) init)).
Proof.
  assert (Hs : steps init [Suspend_item_activate 30; Status_icon_activate]
                 (exec toggle_cb (exec (suspend_cb 30) init))).
  { eapply steps_cons; [apply step_suspend; left; reflexivity|].
    eapply steps_cons; [apply step_status_icon | apply steps_nil]. }
  assert (Hn : no_timeout [Suspend_item_activate 30; Status_icon_activate]).
  { intros id [H|[H|[]]]; discriminate. }
  split; [exact Hs|]. split; [exact Hn|].
  exact (timer_exact_until_a_timer_fires _ _ Hs Hn).
Defined.

Lemma X15_witness :
  reachable (exec (child_data_cb stdout_watch
                     (list_byte_of_string "Status: Enabled" ++ [x0a])) init)
  /\ signals
       (exec (suspend_cb 30)
          (exec (child_data_cb stdout_watch
                   (list_byte_of_string "Status: Enabled" ++ [x0a])) init))
     = [SIGUSR1].
Proof.
  assert (Hr : reachable
                 (exec (child_data_cb stdout_watch
                          (list_byte_of_string "Status: Enabled" ++ [x0a]))
                    init)).
  { eexists. eapply steps_cons; [|apply steps_nil].
    apply step_child_data. left; reflexivity. }
  split; [exact Hr|].
  destruct (suspension_sends_two_signals 30 _ Hr eq_refl)
    as (t & _ & _ & Hsig & _).
  exact Hsig.
Defined.

Lemma X16_witness :
  utf8_decode (list_byte_of_string "Period: Night" ++ [x0a])
  = Some (lit "Period: Night" ++ [NL])
  /\ _period
       (exec (child_data_cb stdout_watch
                (list_byte_of_string "Period: Night" ++ [x0a])) init)
     = lit "Night".
Proof.
  split; [reflexivity|].
  assert (Hrun : child_data_cb stdout_watch
                   (list_byte_of_string "Period: Night" ++ [x0a]) init
                 = (Return true,
                    exec (child_data_cb stdout_watch
                            (list_byte_of_string "Period: Night" ++ [x0a]))
                      init)) by (vm_compute; reflexivity).
  pose proof (stdout_data_is_decoded_lines
                (list_byte_of_string "Period: Night" ++ [x0a])
                (lit "Period: Night" ++ [NL]) init _ eq_refl Hrun) as H.
  unfold worker_state in H.
  exact (f_equal (fun w => snd (fst w)) H).
Defined.
